(** * Service-attachment update: accept/reject list normalisation, pruning
      and the patch builder of [gcloud compute service-attachments update],
      plus the Edge Cloud API-key service-account hook.

    Shallow embedding of
    - googlecloudsdk/command_lib/compute/service_attachments/service_attachments_utils.py
    - surface/compute/service_attachments/update.py  (UpdateHelper)
    - googlecloudsdk/command_lib/edge_cloud/api_key/hooks.py *)

From Stdlib Require Import String Ascii List Bool ZArith Lia Permutation Sorted.
From Stdlib Require Import OrdersEx RelationClasses.
Import ListNotations.
Open Scope string_scope.

(* ------------------------------------------------------------------ *)
(** ** Python string helpers *)

Module PyStr.

(** [p in s] on a prefix position *)
Fixpoint startswith (p s : string) : bool :=
  match p, s with
  | EmptyString, _ => true
  | String c p', String d s' => Ascii.eqb c d && startswith p' s'
  | String _ _, EmptyString => false
  end.

(** Python's [p in s] for strings (substring test). *)
Fixpoint contains (p s : string) : bool :=
  startswith p s ||
  match s with
  | EmptyString => false
  | String _ s' => contains p s'
  end.

Definition slash : ascii := "/"%char.

Fixpoint all_slash (s : string) : bool :=
  match s with
  | EmptyString => true
  | String c s' => Ascii.eqb c slash && all_slash s'
  end.

(** [s.rstrip('/')] *)
Fixpoint rstrip_slash (s : string) : string :=
  match s with
  | EmptyString => EmptyString
  | String c s' => if all_slash s then EmptyString else String c (rstrip_slash s')
  end.

(** [s.split('/')[-1]]: the text after the last ['/'] ([cur] is the
    segment read so far). *)
Fixpoint last_segment_aux (s cur : string) : string :=
  match s with
  | EmptyString => cur
  | String c s' =>
      if Ascii.eqb c slash then last_segment_aux s' EmptyString
      else last_segment_aux s' (cur ++ String c EmptyString)
  end.

Definition last_segment (s : string) : string := last_segment_aux s EmptyString.

(** [s.rstrip('/').split('/')[-1]] *)
Definition trailing_id (s : string) : string := last_segment (rstrip_slash s).

(** Python truthiness of an optional string ([not x] is false). *)
Definition truthy (x : option string) : bool :=
  match x with
  | None => false
  | Some EmptyString => false
  | Some _ => true
  end.

(** [x in xs] for a list or set of strings. *)
Definition mem (x : string) (xs : list string) : bool :=
  existsb (String.eqb x) xs.

(** Python's [int(s)] with base 10 (CPython [PyLong_FromUnicodeObject]).
    A character is a code point below 256. Surrounding white space
    ([str.isspace]: 9-13, 28-32, 133, 160) is stripped, an optional sign
    follows, then decimal digits where single underscores may separate
    two digits. [None] where Python raises [ValueError]. *)
Definition is_space (c : ascii) : bool :=
  let n := nat_of_ascii c in
  (Nat.leb 9 n && Nat.leb n 13) || (Nat.leb 28 n && Nat.leb n 32)
  || Nat.eqb n 133 || Nat.eqb n 160.

Fixpoint all_space (s : string) : bool :=
  match s with
  | EmptyString => true
  | String c s' => is_space c && all_space s'
  end.

Fixpoint lstrip_space (s : string) : string :=
  match s with
  | EmptyString => EmptyString
  | String c s' => if is_space c then lstrip_space s' else s
  end.

Fixpoint rstrip_space (s : string) : string :=
  match s with
  | EmptyString => EmptyString
  | String c s' => if all_space s then EmptyString else String c (rstrip_space s')
  end.

Definition strip_space (s : string) : string := rstrip_space (lstrip_space s).

(** Digits with underscores; [need_digit] holds at the start and after
    an underscore, where a digit must come next. *)
Fixpoint digits_value (s : string) (need_digit : bool) (acc : Z) : option Z :=
  match s with
  | EmptyString => if need_digit then None else Some acc
  | String c s' =>
      let n := Z.of_nat (nat_of_ascii c) in
      if (48 <=? n)%Z && (n <=? 57)%Z
      then digits_value s' false (acc * 10 + (n - 48))%Z
      else if Ascii.eqb c "_"%char && negb need_digit
      then digits_value s' true acc
      else None
  end.

Definition py_int (s : string) : option Z :=
  match strip_space s with
  | String "-"%char t => option_map Z.opp (digits_value t true 0)
  | String "+"%char t => digits_value t true 0
  | t => digits_value t true 0
  end.

(** Python's [repr] of a string of code points below 256: single quotes
    unless the text holds a single quote and no double quote; backslash,
    the chosen quote, tab, newline and carriage return escaped; other
    non-printable characters as [\xhh]. *)
Definition dquote : ascii := ascii_of_nat 34.

Definition hex_digit (n : nat) : ascii :=
  ascii_of_nat (if Nat.ltb n 10 then 48 + n else 87 + n).

Definition printable (n : nat) : bool :=
  (Nat.leb 32 n && Nat.leb n 126)
  || (Nat.leb 161 n && Nat.leb n 255 && negb (Nat.eqb n 173)).

Definition repr_char (q c : ascii) : string :=
  let n := nat_of_ascii c in
  if Nat.eqb n 92 then String c (String c EmptyString)
  else if Ascii.eqb c q then String "\"%char (String q EmptyString)
  else if Nat.eqb n 9 then "\t"
  else if Nat.eqb n 10 then "\n"
  else if Nat.eqb n 13 then "\r"
  else if printable n then String c EmptyString
  else String "\"%char (String "x"%char
         (String (hex_digit (n / 16)) (String (hex_digit (n mod 16)) EmptyString))).

Fixpoint repr_body (q : ascii) (s : string) : string :=
  match s with
  | EmptyString => EmptyString
  | String c s' => repr_char q c ++ repr_body q s'
  end.

Definition repr (s : string) : string :=
  let q := if contains "'" s && negb (contains (String dquote EmptyString) s)
           then dquote else "'"%char in
  String q (repr_body q s ++ String q EmptyString).

End PyStr.

(* ------------------------------------------------------------------ *)
(** ** Exceptions and the error monad *)

Inductive error :=
| ValueError (msg : string)
| TypeError (msg : string)
| ConflictingArgumentsException (msg : string)
| RequiredArgumentException (flag msg : string).

Inductive result (A : Type) :=
| Ok (a : A)
| Err (e : error).
Arguments Ok {A} a.
Arguments Err {A} e.

Definition bind {A B} (m : result A) (f : A -> result B) : result B :=
  match m with
  | Ok a => f a
  | Err e => Err e
  end.

Notation "'let*' x ':=' m 'in' f" := (bind m (fun x => f))
  (at level 200, x name, m at level 100, f at level 200).

(** Sequential traversal: the first raising element aborts the loop. *)
Fixpoint mapM {A B} (f : A -> result B) (l : list A) : result (list B) :=
  match l with
  | [] => Ok []
  | x :: l' => let* y := f x in let* ys := mapM f l' in Ok (y :: ys)
  end.

(** [int(v)] on a dictionary value; [None] is Python's [None]. The
    [ValueError] text shows [repr(v)] cut to 200 characters ([%.200R]). *)
Definition int_of_value (v : option string) : result Z :=
  match v with
  | None => Err (TypeError "int() argument must be a string, a bytes-like object or a real number, not 'NoneType'")
  | Some s =>
      match PyStr.py_int s with
      | Some z => Ok z
      | None => Err (ValueError ("invalid literal for int() with base 10: "
                                  ++ substring 0 200 (PyStr.repr s)))
      end
  end.

(* ------------------------------------------------------------------ *)
(** ** Stable sorting ([sorted(..., key=...)]) *)

Section Sort.
Context {A K : Type} (key : A -> K) (cmp : K -> K -> comparison).

(** Insertion keeps [x] ahead of elements with an equal key: stable. *)
Fixpoint insert_by (x : A) (l : list A) : list A :=
  match l with
  | [] => [x]
  | y :: l' =>
      match cmp (key x) (key y) with
      | Gt => y :: insert_by x l'
      | _ => x :: y :: l'
      end
  end.

Fixpoint sort_by (l : list A) : list A :=
  match l with
  | [] => []
  | x :: l' => insert_by x (sort_by l')
  end.
End Sort.

(** Python's string order (code point order, i.e. byte order on ASCII). *)
Definition str_cmp : string -> string -> comparison := String_as_OT.compare.

(** [sorted(list_of_str)] *)
Definition sorted_str (l : list string) : list string := sort_by (fun s => s) str_cmp l.

(** A dictionary is an association list with distinct keys, in insertion
    order. [sorted(six.iteritems(d))] orders the pairs by key (keys are
    distinct, so the values are never compared). *)
Definition dict (V : Type) := list (string * V).

Definition sorted_items {V} (d : dict V) : dict V := sort_by fst str_cmp d.

(* ------------------------------------------------------------------ *)
(** ** API messages *)

Record ServiceAttachmentConsumerProjectLimit := {
  projectIdOrNum : option string;
  networkUrl : option string;
  endpointUrl : option string;
  connectionLimit : option Z
}.

Definition project_limit (p : string) (n : Z) :=
  {| projectIdOrNum := Some p; networkUrl := None; endpointUrl := None;
     connectionLimit := Some n |}.
Definition network_limit (u : string) (n : Z) :=
  {| projectIdOrNum := None; networkUrl := Some u; endpointUrl := None;
     connectionLimit := Some n |}.
Definition endpoint_limit (u : string) (n : option Z) :=
  {| projectIdOrNum := None; networkUrl := None; endpointUrl := Some u;
     connectionLimit := n |}.

(* ------------------------------------------------------------------ *)
(** ** Accept-list normalisers ([service_attachments_utils]) *)

Definition networks_marker := "/networks/".
Definition forwarding_rules_marker := "/forwardingRules/".

Definition endpoint_unsupported_msg :=
  "Private Service Connect Endpoint URL is not supported for consumer accept list".

(** Loop body of [GetConsumerAcceptList]. *)
Definition consumer_accept_entry (item : string * option string)
  : result ServiceAttachmentConsumerProjectLimit :=
  let (project_id_or_network_url, conn_limit) := item in
  if PyStr.contains networks_marker project_id_or_network_url then
    let* n := int_of_value conn_limit in
    Ok (network_limit project_id_or_network_url n)
  else if PyStr.contains forwarding_rules_marker project_id_or_network_url then
    Err (ValueError endpoint_unsupported_msg)
  else
    let* n := int_of_value conn_limit in
    Ok (project_limit project_id_or_network_url n).

(** [GetConsumerAcceptList(args, messages)] on [args.consumer_accept_list]. *)
Definition GetConsumerAcceptList (consumer_accept_list : list (dict (option string)))
  : result (list ServiceAttachmentConsumerProjectLimit) :=
  mapM consumer_accept_entry (concat (map sorted_items consumer_accept_list)).

Definition network_limit_required_msg (u : string) :=
  "Connection limit is required for network URL: " ++ u.
Definition project_limit_required_msg (p : string) :=
  "Connection limit is required for project ID or number: " ++ p.

(** Loop body of [GetConsumerAcceptListWithEndpointBasedSecurity]. *)
Definition consumer_accept_entry_ebs (item : string * option string)
  : result ServiceAttachmentConsumerProjectLimit :=
  let (consumer_entry, conn_limit_raw) := item in
  if PyStr.contains networks_marker consumer_entry then
    if negb (PyStr.truthy conn_limit_raw) then
      Err (ValueError (network_limit_required_msg consumer_entry))
    else
      let* n := int_of_value conn_limit_raw in
      Ok (network_limit consumer_entry n)
  else if PyStr.contains forwarding_rules_marker consumer_entry then
    if PyStr.truthy conn_limit_raw then
      let* n := int_of_value conn_limit_raw in
      Ok (endpoint_limit consumer_entry (Some n))
    else
      Ok (endpoint_limit consumer_entry None)
  else
    if negb (PyStr.truthy conn_limit_raw) then
      Err (ValueError (project_limit_required_msg consumer_entry))
    else
      let* n := int_of_value conn_limit_raw in
      Ok (project_limit consumer_entry n).

Definition GetConsumerAcceptListWithEndpointBasedSecurity
  (consumer_accept_list : list (dict (option string)))
  : result (list ServiceAttachmentConsumerProjectLimit) :=
  mapM consumer_accept_entry_ebs (concat (map sorted_items consumer_accept_list)).

(* ------------------------------------------------------------------ *)
(** ** The service-attachment resource *)

Inductive ConnectionPreferenceValueValuesEnum :=
| ACCEPT_AUTOMATIC
| ACCEPT_MANUAL
| CONNECTION_PREFERENCE_UNSPECIFIED.

Record ServiceAttachmentConnectedEndpoint := {
  endpointWithId : option string
}.

(** Repeated message fields are lists (apitools yields [[]], never [None],
    for an unset repeated field, so the code's [is None] tests are false). *)
Record ServiceAttachment := {
  targetService : option string;
  description : option string;
  connectionPreference : option ConnectionPreferenceValueValuesEnum;
  enableProxyProtocol : option bool;
  natSubnets : list string;
  consumerRejectLists : list string;
  consumerAcceptLists : list ServiceAttachmentConsumerProjectLimit;
  connectedEndpoints : list ServiceAttachmentConnectedEndpoint;
  reconcileConnections : option bool;
  propagatedConnectionLimit : option Z
}.

(** Attribute assignments [replacement.<field> = v]. *)
Definition set_targetService v (s : ServiceAttachment) :=
  {| targetService := v; description := s.(description);
     connectionPreference := s.(connectionPreference);
     enableProxyProtocol := s.(enableProxyProtocol); natSubnets := s.(natSubnets);
     consumerRejectLists := s.(consumerRejectLists);
     consumerAcceptLists := s.(consumerAcceptLists);
     connectedEndpoints := s.(connectedEndpoints);
     reconcileConnections := s.(reconcileConnections);
     propagatedConnectionLimit := s.(propagatedConnectionLimit) |}.
Definition set_description v (s : ServiceAttachment) :=
  {| targetService := s.(targetService); description := v;
     connectionPreference := s.(connectionPreference);
     enableProxyProtocol := s.(enableProxyProtocol); natSubnets := s.(natSubnets);
     consumerRejectLists := s.(consumerRejectLists);
     consumerAcceptLists := s.(consumerAcceptLists);
     connectedEndpoints := s.(connectedEndpoints);
     reconcileConnections := s.(reconcileConnections);
     propagatedConnectionLimit := s.(propagatedConnectionLimit) |}.
Definition set_connectionPreference v (s : ServiceAttachment) :=
  {| targetService := s.(targetService); description := s.(description);
     connectionPreference := v;
     enableProxyProtocol := s.(enableProxyProtocol); natSubnets := s.(natSubnets);
     consumerRejectLists := s.(consumerRejectLists);
     consumerAcceptLists := s.(consumerAcceptLists);
     connectedEndpoints := s.(connectedEndpoints);
     reconcileConnections := s.(reconcileConnections);
     propagatedConnectionLimit := s.(propagatedConnectionLimit) |}.
Definition set_enableProxyProtocol v (s : ServiceAttachment) :=
  {| targetService := s.(targetService); description := s.(description);
     connectionPreference := s.(connectionPreference);
     enableProxyProtocol := v; natSubnets := s.(natSubnets);
     consumerRejectLists := s.(consumerRejectLists);
     consumerAcceptLists := s.(consumerAcceptLists);
     connectedEndpoints := s.(connectedEndpoints);
     reconcileConnections := s.(reconcileConnections);
     propagatedConnectionLimit := s.(propagatedConnectionLimit) |}.
Definition set_natSubnets v (s : ServiceAttachment) :=
  {| targetService := s.(targetService); description := s.(description);
     connectionPreference := s.(connectionPreference);
     enableProxyProtocol := s.(enableProxyProtocol); natSubnets := v;
     consumerRejectLists := s.(consumerRejectLists);
     consumerAcceptLists := s.(consumerAcceptLists);
     connectedEndpoints := s.(connectedEndpoints);
     reconcileConnections := s.(reconcileConnections);
     propagatedConnectionLimit := s.(propagatedConnectionLimit) |}.
Definition set_consumerRejectLists v (s : ServiceAttachment) :=
  {| targetService := s.(targetService); description := s.(description);
     connectionPreference := s.(connectionPreference);
     enableProxyProtocol := s.(enableProxyProtocol); natSubnets := s.(natSubnets);
     consumerRejectLists := v;
     consumerAcceptLists := s.(consumerAcceptLists);
     connectedEndpoints := s.(connectedEndpoints);
     reconcileConnections := s.(reconcileConnections);
     propagatedConnectionLimit := s.(propagatedConnectionLimit) |}.
Definition set_consumerAcceptLists v (s : ServiceAttachment) :=
  {| targetService := s.(targetService); description := s.(description);
     connectionPreference := s.(connectionPreference);
     enableProxyProtocol := s.(enableProxyProtocol); natSubnets := s.(natSubnets);
     consumerRejectLists := s.(consumerRejectLists);
     consumerAcceptLists := v;
     connectedEndpoints := s.(connectedEndpoints);
     reconcileConnections := s.(reconcileConnections);
     propagatedConnectionLimit := s.(propagatedConnectionLimit) |}.
Definition set_reconcileConnections v (s : ServiceAttachment) :=
  {| targetService := s.(targetService); description := s.(description);
     connectionPreference := s.(connectionPreference);
     enableProxyProtocol := s.(enableProxyProtocol); natSubnets := s.(natSubnets);
     consumerRejectLists := s.(consumerRejectLists);
     consumerAcceptLists := s.(consumerAcceptLists);
     connectedEndpoints := s.(connectedEndpoints);
     reconcileConnections := v;
     propagatedConnectionLimit := s.(propagatedConnectionLimit) |}.
Definition set_propagatedConnectionLimit v (s : ServiceAttachment) :=
  {| targetService := s.(targetService); description := s.(description);
     connectionPreference := s.(connectionPreference);
     enableProxyProtocol := s.(enableProxyProtocol); natSubnets := s.(natSubnets);
     consumerRejectLists := s.(consumerRejectLists);
     consumerAcceptLists := s.(consumerAcceptLists);
     connectedEndpoints := s.(connectedEndpoints);
     reconcileConnections := s.(reconcileConnections);
     propagatedConnectionLimit := v |}.

(* ------------------------------------------------------------------ *)
(** ** Obsolete-entry pruning ([service_attachments_utils]) *)

(** [list.remove(x)]: drops the first occurrence ([ValueError] when absent
    is never reached: every call site tests [x in l] first). *)
Fixpoint remove_first (x : string) (l : list string) : list string :=
  match l with
  | [] => []
  | y :: l' => if String.eqb x y then l' else y :: remove_first x l'
  end.

(** [GetConnectedEndpointIds] (a Python set; only membership is used). *)
Definition GetConnectedEndpointIds (sa : ServiceAttachment) : list string :=
  map (fun ep => match endpointWithId ep with
                 | Some u => PyStr.trailing_id u
                 | None => EmptyString
                 end)
      (filter (fun ep => PyStr.truthy (endpointWithId ep)) (connectedEndpoints sa)).

(** Filter predicate of [CleanObsoleteAcceptedEndpointUrls]. *)
Definition keep_accept_entry (ids : list string) (entry : ServiceAttachmentConsumerProjectLimit) : bool :=
  negb (PyStr.truthy (endpointUrl entry)) ||
  match endpointUrl entry with
  | Some u => PyStr.mem (PyStr.trailing_id u) ids
  | None => false
  end.

(** Filter predicate of [CleanObsoleteRejectedEndpointUrls]. *)
Definition keep_reject_entry (ids : list string) (entry : string) : bool :=
  negb (PyStr.contains forwarding_rules_marker entry) ||
  PyStr.mem (PyStr.trailing_id entry) ids.

(** The tail shared by both passes: given the old and the cleaned length,
    the cleaned list's emptiness and the field name, update
    [cleared_fields] and return whether the list changed. *)
Definition clean_tail (old_len new_len : nat) (cleaned_empty : bool)
  (field : string) (cleared_fields : list string) : list string * bool :=
  if Nat.eqb new_len old_len then (cleared_fields, false)
  else if cleaned_empty && negb (PyStr.mem field cleared_fields) then
    ((cleared_fields ++ [field])%list, true)
  else if negb cleaned_empty && PyStr.mem field cleared_fields then
    (remove_first field cleared_fields, true)
  else (cleared_fields, true).

(** [CleanObsoleteAcceptedEndpointUrls(service_attachment, ids, cleared_fields)]:
    returns the mutated attachment, the mutated [cleared_fields], and the
    boolean result. *)
Definition CleanObsoleteAcceptedEndpointUrls (sa : ServiceAttachment)
  (ids : list string) (cleared_fields : list string)
  : ServiceAttachment * list string * bool :=
  match consumerAcceptLists sa with
  | [] => (sa, cleared_fields, false)
  | old =>
      let cleaned := filter (keep_accept_entry ids) old in
      let sa' := set_consumerAcceptLists cleaned sa in
      let (cf, changed) :=
        clean_tail (length old) (length cleaned)
          (match cleaned with [] => true | _ => false end)
          "consumerAcceptLists" cleared_fields in
      (sa', cf, changed)
  end.

Definition CleanObsoleteRejectedEndpointUrls (sa : ServiceAttachment)
  (ids : list string) (cleared_fields : list string)
  : ServiceAttachment * list string * bool :=
  match consumerRejectLists sa with
  | [] => (sa, cleared_fields, false)
  | old =>
      let cleaned := filter (keep_reject_entry ids) old in
      let sa' := set_consumerRejectLists cleaned sa in
      let (cf, changed) :=
        clean_tail (length old) (length cleaned)
          (match cleaned with [] => true | _ => false end)
          "consumerRejectLists" cleared_fields in
      (sa', cf, changed)
  end.

(* ------------------------------------------------------------------ *)
(** ** Value equality ([==] / [!=] on messages) *)

Definition option_eqb {A} (eqb : A -> A -> bool) (x y : option A) : bool :=
  match x, y with
  | None, None => true
  | Some a, Some b => eqb a b
  | _, _ => false
  end.

Fixpoint list_eqb {A} (eqb : A -> A -> bool) (l1 l2 : list A) : bool :=
  match l1, l2 with
  | [], [] => true
  | x :: l1', y :: l2' => eqb x y && list_eqb eqb l1' l2'
  | _, _ => false
  end.

Definition pref_eqb (x y : ConnectionPreferenceValueValuesEnum) : bool :=
  match x, y with
  | ACCEPT_AUTOMATIC, ACCEPT_AUTOMATIC
  | ACCEPT_MANUAL, ACCEPT_MANUAL
  | CONNECTION_PREFERENCE_UNSPECIFIED, CONNECTION_PREFERENCE_UNSPECIFIED => true
  | _, _ => false
  end.

Definition limit_eqb (x y : ServiceAttachmentConsumerProjectLimit) : bool :=
  option_eqb String.eqb (projectIdOrNum x) (projectIdOrNum y) &&
  option_eqb String.eqb (networkUrl x) (networkUrl y) &&
  option_eqb String.eqb (endpointUrl x) (endpointUrl y) &&
  option_eqb Z.eqb (connectionLimit x) (connectionLimit y).

(* ------------------------------------------------------------------ *)
(** ** Sort keys of accept-list entries *)

Definition key := (option string * option Z)%type.

(** Tuple order on sort keys. Python raises [TypeError] when the sort
    compares [None] with a string or an int; here [None] is ordered first,
    and statements that need Python's sort to succeed assume [py_sortable]. *)
Definition option_cmp {A} (cmp : A -> A -> comparison) (x y : option A) : comparison :=
  match x, y with
  | None, None => Eq
  | None, Some _ => Lt
  | Some _, None => Gt
  | Some a, Some b => cmp a b
  end.

Definition key_cmp (k1 k2 : key) : comparison :=
  match option_cmp str_cmp (fst k1) (fst k2) with
  | Eq => option_cmp Z.compare (snd k1) (snd k2)
  | c => c
  end.

Definition GetProjectOrNetwork (c : ServiceAttachmentConsumerProjectLimit) : key :=
  match projectIdOrNum c with
  | Some p => (Some p, connectionLimit c)
  | None => (networkUrl c, connectionLimit c)
  end.

Definition GetProjectOrNetworkOrEndpoint (c : ServiceAttachmentConsumerProjectLimit) : key :=
  match projectIdOrNum c with
  | Some p => (Some p, connectionLimit c)
  | None =>
      match endpointUrl c with
      | Some e => (Some e, connectionLimit c)
      | None => (networkUrl c, connectionLimit c)
      end
  end.

(* ------------------------------------------------------------------ *)
(** ** The override set ([args]) *)

(** [Some v] is [args.IsSpecified(f)] with [args.f = v]. [nat_subnets]
    holds the self-links [_GetNatSubnets] resolves the flag to (resource
    resolution belongs to the CLI framework). The reject and accept lists
    are the parsed flag values: a list of strings and a list of
    dictionaries (one per flag occurrence). *)
Record Args := {
  target_service : option string;
  description_arg : option string;
  connection_preference : option string;
  enable_proxy_protocol : option bool;
  nat_subnets : option (list string);
  consumer_reject_list : option (list string);
  consumer_accept_list : option (list (dict (option string)));
  remove_obsolete_endpoint_accept_reject_entries : bool;
  reconcile_connections : option bool;
  propagated_connection_limit : option Z
}.

Definition is_specified {A} (o : option A) : bool :=
  match o with Some _ => true | None => false end.

Definition no_args : Args :=
  {| target_service := None; description_arg := None; connection_preference := None;
     enable_proxy_protocol := None; nat_subnets := None; consumer_reject_list := None;
     consumer_accept_list := None; remove_obsolete_endpoint_accept_reject_entries := false;
     reconcile_connections := None; propagated_connection_limit := None |}.

(** [GetConnectionPreference] *)
Definition GetConnectionPreference (token : string) : option ConnectionPreferenceValueValuesEnum :=
  if String.eqb token "ACCEPT_AUTOMATIC" then Some ACCEPT_AUTOMATIC
  else if String.eqb token "ACCEPT_MANUAL" then Some ACCEPT_MANUAL
  else None.

(* ------------------------------------------------------------------ *)
(** ** [UpdateHelper._Modify] *)

(** Local state of [_Modify]: the copy, the [is_updated] flag and the
    caller's [cleared_fields] list, mutated in place. *)
Record MState := {
  replacement : ServiceAttachment;
  is_updated : bool;
  cleared_fields : list string
}.

Definition mk (r : ServiceAttachment) (u : bool) (cf : list string) : MState :=
  {| replacement := r; is_updated := u; cleared_fields := cf |}.

Definition conflicting_msg :=
  "--remove-obsolete-endpoint-accept-reject-entries cannot be specified with --consumer-accept-list or --consumer-reject-list.".

Section Modify.
Variable support_endpoint_based_security_arg : bool.
Variable args : Args.
Variable old_resource : ServiceAttachment.

Definition step_target (st : MState) : MState :=
  match target_service args with
  | Some t => mk (set_targetService (Some t) (replacement st)) true (cleared_fields st)
  | None => st
  end.

Definition step_description (st : MState) : MState :=
  match description_arg args with
  | Some d =>
      if negb (option_eqb String.eqb (Some d) (description old_resource)) then
        mk (set_description (Some d) (replacement st)) true (cleared_fields st)
      else st
  | None => st
  end.

Definition step_connection_preference (st : MState) : MState :=
  match connection_preference args with
  | Some tok =>
      let new_connection_preference := GetConnectionPreference tok in
      if negb (option_eqb pref_eqb new_connection_preference (connectionPreference old_resource)) then
        mk (set_connectionPreference new_connection_preference (replacement st)) true (cleared_fields st)
      else st
  | None => st
  end.

Definition step_proxy_protocol (st : MState) : MState :=
  match enable_proxy_protocol args with
  | Some b =>
      if negb (option_eqb Bool.eqb (Some b) (enableProxyProtocol old_resource)) then
        mk (set_enableProxyProtocol (Some b) (replacement st)) true (cleared_fields st)
      else st
  | None => st
  end.

Definition step_nat_subnets (st : MState) : MState :=
  match nat_subnets args with
  | Some subnets =>
      let new_nat_subnets := sorted_str subnets in
      if negb (list_eqb String.eqb new_nat_subnets (sorted_str (natSubnets old_resource))) then
        mk (set_natSubnets new_nat_subnets (replacement st)) true (cleared_fields st)
      else st
  | None => st
  end.

Definition step_reject_list (st : MState) : MState :=
  match consumer_reject_list args with
  | Some rl =>
      let new_reject_list := sorted_str rl in
      if negb (list_eqb String.eqb new_reject_list (sorted_str (consumerRejectLists old_resource))) then
        mk (set_consumerRejectLists new_reject_list (replacement st)) true
           (match new_reject_list with
            | [] => (cleared_fields st ++ ["consumerRejectLists"])%list
            | _ => cleared_fields st
            end)
      else st
  | None => st
  end.

Definition accept_key : ServiceAttachmentConsumerProjectLimit -> key :=
  if support_endpoint_based_security_arg then GetProjectOrNetworkOrEndpoint
  else GetProjectOrNetwork.

Definition get_consumer_accept_list (l : list (dict (option string))) :=
  if support_endpoint_based_security_arg
  then GetConsumerAcceptListWithEndpointBasedSecurity l
  else GetConsumerAcceptList l.

Definition step_accept_list (st : MState) : result MState :=
  match consumer_accept_list args with
  | Some al =>
      let* consumer_accept_list := get_consumer_accept_list al in
      let new_accept_list := sort_by accept_key key_cmp consumer_accept_list in
      if negb (list_eqb limit_eqb new_accept_list
                 (sort_by accept_key key_cmp (consumerAcceptLists old_resource))) then
        Ok (mk (set_consumerAcceptLists new_accept_list (replacement st)) true
               (match new_accept_list with
                | [] => (cleared_fields st ++ ["consumerAcceptLists"])%list
                | _ => cleared_fields st
                end))
      else Ok st
  | None => Ok st
  end.

(** [_RemoveObsoleteEndpointEntries(replacement, cleared_fields)] *)
Definition RemoveObsoleteEndpointEntries (r : ServiceAttachment) (cf : list string)
  : ServiceAttachment * list string * bool :=
  let connected_endpoint_ids := GetConnectedEndpointIds r in
  let '(r1, cf1, acc_changed) := CleanObsoleteAcceptedEndpointUrls r connected_endpoint_ids cf in
  let '(r2, cf2, rej_changed) := CleanObsoleteRejectedEndpointUrls r1 connected_endpoint_ids cf1 in
  (r2, cf2, acc_changed || rej_changed).

(** Note the assignment [is_updated = self._RemoveObsoleteEndpointEntries(...)]. *)
Definition step_remove_obsolete (st : MState) : result MState :=
  if support_endpoint_based_security_arg
     && remove_obsolete_endpoint_accept_reject_entries args then
    if is_specified (consumer_accept_list args) || is_specified (consumer_reject_list args) then
      Err (ConflictingArgumentsException conflicting_msg)
    else
      let '(r, cf, upd) := RemoveObsoleteEndpointEntries (replacement st) (cleared_fields st) in
      Ok (mk r upd cf)
  else Ok st.

Definition step_reconcile (st : MState) : MState :=
  match reconcile_connections args with
  | Some b =>
      if negb (option_eqb Bool.eqb (Some b) (reconcileConnections old_resource)) then
        mk (set_reconcileConnections (Some b) (replacement st)) true (cleared_fields st)
      else st
  | None => st
  end.

Definition step_propagated_limit (st : MState) : MState :=
  match propagated_connection_limit args with
  | Some n =>
      if negb (option_eqb Z.eqb (Some n) (propagatedConnectionLimit old_resource)) then
        mk (set_propagatedConnectionLimit (Some n) (replacement st)) true (cleared_fields st)
      else st
  | None => st
  end.

(** [_Modify(holder, args, old_resource, cleared_fields)]: [Ok (None, cf)]
    is [return None], [Ok (Some r, cf)] is [return replacement]; [cf] is
    the caller's [cleared_fields] afterwards. The copy starts equal to
    [old_resource] ([encoding.CopyProtoMessage]). *)
Definition Modify (cleared0 : list string)
  : result (option ServiceAttachment * list string) :=
  let st0 := mk old_resource false cleared0 in
  let st6 := step_reject_list (step_nat_subnets (step_proxy_protocol
               (step_connection_preference (step_description (step_target st0))))) in
  let* st7 := step_accept_list st6 in
  let* st8 := step_remove_obsolete st7 in
  let st10 := step_propagated_limit (step_reconcile st8) in
  Ok (if is_updated st10 then Some (replacement st10) else None, cleared_fields st10).
End Modify.

(* ------------------------------------------------------------------ *)
(** ** [UpdateHelper.Run] *)

(** What [Run] returns: the unmodified fetched resource, the PATCH it
    issues (body and the fields passed to [IncludeFields]), or the
    exception it propagates. *)
Inductive RunOutcome :=
| ReturnedOld (old : ServiceAttachment)
| Patched (body : ServiceAttachment) (include_fields : list string)
| Raised (e : error).

(** The server holds the attachment: [Run] fetches it, and only the PATCH
    request writes it. *)
Definition Run (support : bool) (args : Args) (server : ServiceAttachment)
  : RunOutcome * ServiceAttachment :=
  let old_resource := server in
  match Modify support args old_resource [] with
  | Err e => (Raised e, server)
  | Ok (None, _) => (ReturnedOld old_resource, server)
  | Ok (Some r, cleared) => (Patched r cleared, r)
  end.

(* ------------------------------------------------------------------ *)
(** ** Edge Cloud API key: [hooks.ConstructServiceAccountName] *)

Module ApiKeyHooks.

Record ApiKey := {
  apiKeyName : option string;
  serviceAccountName : option string
}.

Definition empty_api_key : ApiKey := {| apiKeyName := None; serviceAccountName := None |}.

Record Request := {
  parent : option string;
  apiKey : option ApiKey
}.

(** [Some v] for [service_account] is [args.IsSpecified('service_account')]
    with value [v]; [delattr(args, 'service_account')] sets it back to [None]. *)
Record HookArgs := {
  service_account : option string;
  project : option string;
  location : option string
}.

Definition service_account_name (project location sa_id : string) : string :=
  "projects/" ++ project ++ "/locations/" ++ location ++ "/serviceAccounts/" ++ sa_id.

(** The hook mutates [args] and [request] in place: the result is the
    returned value (or the raised exception) together with the state of
    both objects afterwards. *)
Definition ConstructServiceAccountName (args : HookArgs) (request : Request)
  : result Request * (HookArgs * Request) :=
  match service_account args with
  | Some sa_id =>
      if negb (PyStr.truthy (project args)) then
        (Err (RequiredArgumentException "--project" "The --project flag is required."),
         (args, request))
      else if negb (PyStr.truthy (location args)) then
        (Err (RequiredArgumentException "--location" "The --location flag is required."),
         (args, request))
      else
        let p := match project args with Some p => p | None => EmptyString end in
        let l := match location args with Some l => l | None => EmptyString end in
        let name := service_account_name p l sa_id in
        let key := match apiKey request with
                   | Some k => k
                   | None => empty_api_key
                   end in
        let request' := {| parent := parent request;
                           apiKey := Some {| apiKeyName := apiKeyName key;
                                             serviceAccountName := Some name |} |} in
        let args' := {| service_account := None; project := project args;
                        location := location args |} in
        (Ok request', (args', request'))
  | None => (Ok request, (args, request))
  end.

End ApiKeyHooks.

(* ------------------------------------------------------------------ *)
(** ** Sample resources *)

Definition sa0 : ServiceAttachment :=
  {| targetService := Some "projects/p/regions/r/forwardingRules/ilb";
     description := Some "a";
     connectionPreference := Some ACCEPT_MANUAL;
     enableProxyProtocol := Some false;
     natSubnets := ["s2"; "s1"];
     consumerRejectLists := ["b"; "a"];
     consumerAcceptLists := [];
     connectedEndpoints := [];
     reconcileConnections := Some false;
     propagatedConnectionLimit := None |}.


(** Comparison functions that are total orders. *)
Record CmpOk {K : Type} (cmp : K -> K -> comparison) : Prop := {
  cmp_eq : forall x y, cmp x y = Eq -> x = y;
  cmp_opp : forall x y, cmp y x = CompOpp (cmp x y);
  cmp_lt_trans : forall x y z, cmp x y = Lt -> cmp y z = Lt -> cmp x z = Lt
}.

Definition sa_args (target desc : option string) (nat rej : option (list string))
  (acc : option (list (dict (option string)))) (remove : bool) : Args :=
  {| target_service := target; description_arg := desc; connection_preference := None;
     enable_proxy_protocol := None; nat_subnets := nat; consumer_reject_list := rej;
     consumer_accept_list := acc; remove_obsolete_endpoint_accept_reject_entries := remove;
     reconcile_connections := None; propagated_connection_limit := None |}.

(* ------------------------------------------------------------------ *)
(** ** Fields of the attachment, for frame statements *)

Inductive Field :=
| F_targetService | F_description | F_connectionPreference | F_enableProxyProtocol
| F_natSubnets | F_consumerRejectLists | F_consumerAcceptLists | F_connectedEndpoints
| F_reconcileConnections | F_propagatedConnectionLimit.

Definition field_eq (f : Field) (a b : ServiceAttachment) : Prop :=
  match f with
  | F_targetService => targetService a = targetService b
  | F_description => description a = description b
  | F_connectionPreference => connectionPreference a = connectionPreference b
  | F_enableProxyProtocol => enableProxyProtocol a = enableProxyProtocol b
  | F_natSubnets => natSubnets a = natSubnets b
  | F_consumerRejectLists => consumerRejectLists a = consumerRejectLists b
  | F_consumerAcceptLists => consumerAcceptLists a = consumerAcceptLists b
  | F_connectedEndpoints => connectedEndpoints a = connectedEndpoints b
  | F_reconcileConnections => reconcileConnections a = reconcileConnections b
  | F_propagatedConnectionLimit => propagatedConnectionLimit a = propagatedConnectionLimit b
  end.

(** The fields an invocation names: the overridden ones, and the two lists
    when the obsolete-entry pass runs. *)
Definition overridden (support : bool) (args : Args) (f : Field) : bool :=
  let prune := support && remove_obsolete_endpoint_accept_reject_entries args in
  match f with
  | F_targetService => is_specified (target_service args)
  | F_description => is_specified (description_arg args)
  | F_connectionPreference => is_specified (connection_preference args)
  | F_enableProxyProtocol => is_specified (enable_proxy_protocol args)
  | F_natSubnets => is_specified (nat_subnets args)
  | F_consumerRejectLists => is_specified (consumer_reject_list args) || prune
  | F_consumerAcceptLists => is_specified (consumer_accept_list args) || prune
  | F_connectedEndpoints => false
  | F_reconcileConnections => is_specified (reconcile_connections args)
  | F_propagatedConnectionLimit => is_specified (propagated_connection_limit args)
  end.

Definition e3_url := "projects/c/regions/r/forwardingRules/e3".

(** An attachment whose accept list holds one endpoint entry for [e3]. *)
Definition sa_e3 : ServiceAttachment := set_consumerAcceptLists [endpoint_limit e3_url None] sa0.

Definition both_markers_url := "projects/p/global/networks/n/forwardingRules/f".

Definition pref_args (tok : string) : Args :=
  {| target_service := None; description_arg := None;
     connection_preference := Some tok; enable_proxy_protocol := None;
     nat_subnets := None; consumer_reject_list := None; consumer_accept_list := None;
     remove_obsolete_endpoint_accept_reject_entries := false;
     reconcile_connections := None; propagated_connection_limit := None |}.

(** Two builder states agree on [cleared_fields] and on both consumer
    lists of the copy. *)
Definition lists_frame (s t : MState) : Prop :=
  cleared_fields s = cleared_fields t /\
  consumerRejectLists (replacement s) = consumerRejectLists (replacement t) /\
  consumerAcceptLists (replacement s) = consumerAcceptLists (replacement t).

(** What an attachment must hold for [_Modify] to find nothing to do for
    [args]: each given override already in place (lists: equal after
    sorting), and no obsolete endpoint entry left when the pass runs. *)
Definition settled (support : bool) (args : Args) (r : ServiceAttachment) : Prop :=
  (forall d, description_arg args = Some d -> description r = Some d) /\
  (forall tok, connection_preference args = Some tok ->
     connectionPreference r = GetConnectionPreference tok) /\
  (forall b, enable_proxy_protocol args = Some b -> enableProxyProtocol r = Some b) /\
  (forall l, nat_subnets args = Some l -> sorted_str (natSubnets r) = sorted_str l) /\
  (forall l, consumer_reject_list args = Some l ->
     sorted_str (consumerRejectLists r) = sorted_str l) /\
  (forall al, consumer_accept_list args = Some al ->
     exists cal, get_consumer_accept_list support al = Ok cal /\
       sort_by (accept_key support) key_cmp (consumerAcceptLists r)
       = sort_by (accept_key support) key_cmp cal) /\
  (support && remove_obsolete_endpoint_accept_reject_entries args = true ->
     consumer_accept_list args = None /\ consumer_reject_list args = None /\
     (forall e, In e (consumerAcceptLists r) ->
        keep_accept_entry (GetConnectedEndpointIds r) e = true) /\
     (forall e, In e (consumerRejectLists r) ->
        keep_reject_entry (GetConnectedEndpointIds r) e = true)) /\
  (forall b, reconcile_connections args = Some b -> reconcileConnections r = Some b) /\
  (forall n, propagated_connection_limit args = Some n -> propagatedConnectionLimit r = Some n).

(* ------------------------------------------------------------------ *)
(** ** When Python's [sorted] on accept-list entries raises

    [key_cmp] orders [None] first, where Python's tuple comparison raises
    [TypeError]: it compares the first components that differ ([==]) with
    [<], and [<] between [None] and a string, an int or [None] raises.
    Two sort keys are comparable in Python exactly when [py_key_comparable]
    holds, and there [key_cmp] agrees with Python's order. When all pairs of
    a list are comparable ([py_sortable]), [sorted(l, key=k)] raises nothing
    and returns [sort_by k key_cmp l]. *)

Definition comparable_opt {A} (eqb : A -> A -> bool) (x y : option A) : bool :=
  match x, y with
  | Some _, Some _ => true
  | _, _ => option_eqb eqb x y
  end.

Definition py_key_comparable (k1 k2 : key) : bool :=
  if option_eqb String.eqb (fst k1) (fst k2)
  then comparable_opt Z.eqb (snd k1) (snd k2)
  else match fst k1, fst k2 with
       | Some _, Some _ => true
       | _, _ => false
       end.

Definition py_sortable {A} (k : A -> key) (l : list A) : bool :=
  forallb (fun x => forallb (fun y => py_key_comparable (k x) (k y)) l) l.

(* ================================================================== *)
(** * Properties *)

Example reorder_ex :
  Modify true {| target_service := None; description_arg := None; connection_preference := None;
     enable_proxy_protocol := None; nat_subnets := Some ["s1"; "s2"];
     consumer_reject_list := Some ["a"; "b"];
     consumer_accept_list := None; remove_obsolete_endpoint_accept_reject_entries := false;
     reconcile_connections := None; propagated_connection_limit := None |} sa0 []
  = Ok (None, []).
Proof. reflexivity. Qed.

Example description_ex :
  Modify true {| target_service := None; description_arg := Some "b"; connection_preference := None;
     enable_proxy_protocol := None; nat_subnets := None;
     consumer_reject_list := None;
     consumer_accept_list := None; remove_obsolete_endpoint_accept_reject_entries := true;
     reconcile_connections := None; propagated_connection_limit := None |} sa0 []
  = Ok (None, []).
Proof. reflexivity. Qed.

Example trailing_id_ex : PyStr.trailing_id "projects/p/regions/r/forwardingRules/e1/" = "e1".
Proof. reflexivity. Qed.

Example basic_ex :
  GetConsumerAcceptList [[("projects/p1", Some "10")]] = Ok [project_limit "projects/p1" 10].
Proof. reflexivity. Qed.

Example ebs_ex :
  GetConsumerAcceptListWithEndpointBasedSecurity
    [[("projects/p/regions/r/forwardingRules/e1", None); ("pz", Some "5")]]
  = Ok [endpoint_limit "projects/p/regions/r/forwardingRules/e1" None; project_limit "pz" 5].
Proof. reflexivity. Qed.

(* ------------------------------------------------------------------ *)
(** ** Orders *)

Lemma cmp_refl {K} (cmp : K -> K -> comparison) : CmpOk cmp -> forall x, cmp x x = Eq.
Proof.
  intros H x. pose proof (cmp_opp _ H x x) as E. destruct (cmp x x); simpl in E; congruence.
Qed.

Lemma cmp_le_trans {K} (cmp : K -> K -> comparison) : CmpOk cmp ->
  forall x y z, cmp x y <> Gt -> cmp y z <> Gt -> cmp x z <> Gt.
Proof.
  intros H x y z Hxy Hyz.
  destruct (cmp x y) eqn:E1; [apply (cmp_eq _ H) in E1; subst; exact Hyz | | congruence].
  destruct (cmp y z) eqn:E2; [apply (cmp_eq _ H) in E2; subst; rewrite E1; discriminate | | congruence].
  rewrite (cmp_lt_trans _ H x y z E1 E2). discriminate.
Qed.

Lemma cmp_le_antisym {K} (cmp : K -> K -> comparison) : CmpOk cmp ->
  forall x y, cmp x y <> Gt -> cmp y x <> Gt -> x = y.
Proof.
  intros H x y H1 H2. rewrite (cmp_opp _ H) in H2.
  apply (cmp_eq _ H). destruct (cmp x y); simpl in *; congruence.
Qed.

Lemma str_cmp_ok : CmpOk str_cmp.
Proof.
  unfold str_cmp. split.
  - intros x y E. destruct (String_as_OT.compare_spec x y); congruence.
  - intros x y.
    destruct (String_as_OT.compare_spec x y) as [E1|L1|L1];
    destruct (String_as_OT.compare_spec y x) as [E2|L2|L2]; simpl; try reflexivity;
    exfalso; unfold String_as_OT.eq in *; try subst;
    first [ exact (String_as_OT.lt_strorder.(StrictOrder_Irreflexive) _ ltac:(eassumption))
          | exact (String_as_OT.lt_strorder.(StrictOrder_Irreflexive) _
                     (String_as_OT.lt_strorder.(StrictOrder_Transitive) _ _ _ L1 L2)) ].
  - intros x y z E1 E2.
    destruct (String_as_OT.compare_spec x y) as [|L1|]; try discriminate.
    destruct (String_as_OT.compare_spec y z) as [|L2|]; try discriminate.
    pose proof (StrictOrder_Transitive (R := String_as_OT.lt) _ _ _ L1 L2) as L3.
    exact L3.
Qed.

Lemma Z_cmp_ok : CmpOk Z.compare.
Proof.
  split.
  - intros x y E. apply Z.compare_eq. exact E.
  - intros x y. apply Z.compare_antisym.
  - intros x y z E1 E2. rewrite Z.compare_lt_iff in *. lia.
Qed.

Lemma option_cmp_ok {A} (cmp : A -> A -> comparison) : CmpOk cmp -> CmpOk (option_cmp cmp).
Proof.
  intros H. split.
  - intros [x|] [y|]; simpl; intro E; try discriminate; try reflexivity.
    f_equal. apply (cmp_eq _ H). exact E.
  - intros [x|] [y|]; simpl; try reflexivity. apply (cmp_opp _ H).
  - intros [x|] [y|] [z|]; simpl; intros E1 E2; try discriminate; try reflexivity.
    apply (cmp_lt_trans _ H x y z E1 E2).
Qed.

Lemma key_cmp_ok : CmpOk key_cmp.
Proof.
  pose proof (option_cmp_ok _ str_cmp_ok) as H1.
  pose proof (option_cmp_ok _ Z_cmp_ok) as H2.
  unfold key_cmp. split.
  - intros [a1 b1] [a2 b2]; simpl; intro E.
    destruct (option_cmp str_cmp a1 a2) eqn:E1; try discriminate.
    apply (cmp_eq _ H1) in E1. apply (cmp_eq _ H2) in E. congruence.
  - intros [a1 b1] [a2 b2]; simpl.
    rewrite (cmp_opp _ H1 a1 a2), (cmp_opp _ H2 b1 b2).
    destruct (option_cmp str_cmp a1 a2); reflexivity.
  - intros [a1 b1] [a2 b2] [a3 b3]; simpl; intros E1 E2.
    destruct (option_cmp str_cmp a1 a2) eqn:F1; try discriminate;
    destruct (option_cmp str_cmp a2 a3) eqn:F2; try discriminate.
    + apply (cmp_eq _ H1) in F1, F2. subst. rewrite (cmp_refl _ H1).
      apply (cmp_lt_trans _ H2 _ _ _ E1 E2).
    + apply (cmp_eq _ H1) in F1. subst. rewrite F2. reflexivity.
    + apply (cmp_eq _ H1) in F2. subst. rewrite F1. reflexivity.
    + rewrite (cmp_lt_trans _ H1 _ _ _ F1 F2). reflexivity.
Qed.

(* ------------------------------------------------------------------ *)
(** ** Insertion sort: a stable sort whose result depends only on the
       multiset when keys determine elements *)

Section SortFacts.
Context {A K : Type} (key : A -> K) (cmp : K -> K -> comparison).
Hypothesis Hcmp : CmpOk cmp.

Definition le_key (x y : A) : Prop := cmp (key x) (key y) <> Gt.

Lemma insert_by_perm x l : Permutation (insert_by key cmp x l) (x :: l).
Proof.
  induction l as [|y l IH]; simpl; [reflexivity|].
  destruct (cmp (key x) (key y)); try reflexivity.
  rewrite IH. apply perm_swap.
Qed.

Lemma sort_by_perm l : Permutation (sort_by key cmp l) l.
Proof.
  induction l as [|x l IH]; simpl; [reflexivity|].
  rewrite insert_by_perm. apply perm_skip. exact IH.
Qed.

Lemma insert_by_hdrel a x l :
  HdRel le_key a l -> le_key a x -> HdRel le_key a (insert_by key cmp x l).
Proof.
  intros Hl Hax. destruct l as [|y l]; simpl.
  - constructor. exact Hax.
  - inversion Hl; subst.
    destruct (cmp (key x) (key y)); constructor; assumption.
Qed.

Lemma insert_by_sorted x l : Sorted le_key l -> Sorted le_key (insert_by key cmp x l).
Proof.
  induction l as [|y l IH]; simpl; intro Hs.
  - repeat constructor.
  - inversion Hs as [|? ? Hs' Hhd]; subst.
    destruct (cmp (key x) (key y)) eqn:E.
    + constructor; [exact Hs|]. constructor. unfold le_key. rewrite E. discriminate.
    + constructor; [exact Hs|]. constructor. unfold le_key. rewrite E. discriminate.
    + constructor; [apply IH; exact Hs'|].
      apply insert_by_hdrel; [exact Hhd|].
      unfold le_key. rewrite (cmp_opp _ Hcmp), E. discriminate.
Qed.

Lemma sort_by_sorted l : Sorted le_key (sort_by key cmp l).
Proof.
  induction l as [|x l IH]; simpl; [constructor|]. apply insert_by_sorted. exact IH.
Qed.

Lemma le_key_trans : Transitive le_key.
Proof. intros x y z. unfold le_key. apply (cmp_le_trans _ Hcmp). Qed.

Lemma sort_by_strongly_sorted l : StronglySorted le_key (sort_by key cmp l).
Proof. apply Sorted_StronglySorted; [exact le_key_trans | apply sort_by_sorted]. Qed.

(** Two ordered permutations coincide when elements with equal keys are
    equal. *)
Lemma strongly_sorted_perm_eq l1 l2 :
  StronglySorted le_key l1 -> StronglySorted le_key l2 -> Permutation l1 l2 ->
  (forall x y, In x l1 -> In y l1 -> key x = key y -> x = y) -> l1 = l2.
Proof.
  revert l2. induction l1 as [|a l1 IH]; intros l2 S1 S2 P Hk.
  - symmetry. apply Permutation_nil. exact P.
  - destruct l2 as [|b l2]; [apply Permutation_sym, Permutation_nil in P; discriminate|].
    apply StronglySorted_inv in S1 as [S1 F1].
    apply StronglySorted_inv in S2 as [S2 F2].
    assert (Hab : a = b).
    { assert (Ha : In a (b :: l2)) by (apply (Permutation_in a P); left; reflexivity).
      assert (Hb : In b (a :: l1)) by (apply (Permutation_in b (Permutation_sym P)); left; reflexivity).
      destruct Ha as [Ha|Ha]; [symmetry; exact Ha|].
      destruct Hb as [Hb|Hb]; [exact Hb|].
      apply Hk; [left; reflexivity | right; exact Hb |].
      apply (cmp_le_antisym _ Hcmp).
      - rewrite Forall_forall in F1. apply F1. exact Hb.
      - rewrite Forall_forall in F2. apply F2. exact Ha. }
    subst b. f_equal. apply IH; [exact S1 | exact S2 | |].
    + apply Permutation_cons_inv with a. exact P.
    + intros x y Hx Hy. apply Hk; right; assumption.
Qed.

Lemma sort_by_perm_eq l1 l2 :
  Permutation l1 l2 ->
  (forall x y, In x l1 -> In y l1 -> key x = key y -> x = y) ->
  sort_by key cmp l1 = sort_by key cmp l2.
Proof.
  intros P Hk. apply strongly_sorted_perm_eq;
    [apply sort_by_strongly_sorted | apply sort_by_strongly_sorted | |].
  - apply (Permutation_trans (sort_by_perm l1)).
    apply (Permutation_trans P). apply Permutation_sym, sort_by_perm.
  - intros x y Hx Hy. apply Hk; apply (Permutation_in _ (sort_by_perm l1)); assumption.
Qed.
End SortFacts.

Lemma sorted_str_perm l1 l2 : Permutation l1 l2 -> sorted_str l1 = sorted_str l2.
Proof.
  intro P. unfold sorted_str. apply (sort_by_perm_eq _ _ str_cmp_ok); [exact P|].
  intros x y _ _ E. exact E.
Qed.

(** Keys of a dictionary are distinct, so they determine its items. *)
Lemma nodup_keys_determine {V} (d : dict V) :
  NoDup (map fst d) -> forall x y, In x d -> In y d -> fst x = fst y -> x = y.
Proof.
  induction d as [|[k v] d IH]; simpl; intros Hn x y Hx Hy E; [contradiction|].
  inversion Hn as [|? ? Hk Hn']; subst.
  destruct Hx as [Hx|Hx], Hy as [Hy|Hy]; subst; try reflexivity.
  - exfalso. apply Hk. simpl in E. rewrite E. apply in_map. exact Hy.
  - exfalso. apply Hk. simpl in E. rewrite <- E. apply in_map. exact Hx.
  - apply IH; assumption.
Qed.

(* ------------------------------------------------------------------ *)
(** ** Accept-list normalisers *)

Lemma sorted_items_perm {V} (d d' : dict V) :
  Permutation d d' -> NoDup (map fst d) -> sorted_items d = sorted_items d'.
Proof.
  intros P N. unfold sorted_items. apply (sort_by_perm_eq _ _ str_cmp_ok); [exact P|].
  apply nodup_keys_determine. exact N.
Qed.

Lemma map_sorted_items_perm {V} (L L' : list (dict V)) :
  Forall2 (fun d d' => Permutation d d' /\ NoDup (map fst d)) L L' ->
  map sorted_items L = map sorted_items L'.
Proof.
  induction 1 as [|d d' L L' [P N] _ IH]; simpl; [reflexivity|].
  rewrite (sorted_items_perm d d' P N), IH. reflexivity.
Qed.

Lemma int_of_value_truthy v n : int_of_value v = Ok n -> PyStr.truthy v = true.
Proof.
  destruct v as [[|c s]|]; simpl; try discriminate; reflexivity.
Qed.

(** C8. Basic form ([GetConsumerAcceptList]), per entry, in the order of
    the code's [if]/[elif]/[else]: an identifier containing ['/networks/']
    gives a network-limit entry; one that does not, but contains
    ['/forwardingRules/'], raises the unsupported-endpoint [ValueError];
    any other gives a project-limit entry (for a limit that [int()]
    converts). The normaliser runs this body over the items of each
    mapping in the order of [sorted] by identifier, which is ordered by
    identifier and does not depend on the mapping's iteration order. *)
Theorem C8_basic_accept_list :
  (forall u v n, PyStr.contains networks_marker u = true -> int_of_value v = Ok n ->
     consumer_accept_entry (u, v) = Ok (network_limit u n)) /\
  (forall u v, PyStr.contains networks_marker u = false ->
     PyStr.contains forwarding_rules_marker u = true ->
     consumer_accept_entry (u, v) = Err (ValueError endpoint_unsupported_msg)) /\
  (forall u v n, PyStr.contains networks_marker u = false ->
     PyStr.contains forwarding_rules_marker u = false -> int_of_value v = Ok n ->
     consumer_accept_entry (u, v) = Ok (project_limit u n)) /\
  (forall L, GetConsumerAcceptList L =
             mapM consumer_accept_entry (concat (map sorted_items L))) /\
  (forall (d : dict (option string)), StronglySorted (le_key fst str_cmp) (sorted_items d)) /\
  (forall L L', Forall2 (fun d d' => Permutation d d' /\ NoDup (map fst d)) L L' ->
     GetConsumerAcceptList L = GetConsumerAcceptList L').
Proof.
  split; [|split; [|split; [|split; [|split]]]].
  - intros u v n Hn Hv. simpl. rewrite Hn, Hv. reflexivity.
  - intros u v Hn Hf. simpl. rewrite Hn, Hf. reflexivity.
  - intros u v n Hn Hf Hv. simpl. rewrite Hn, Hf, Hv. reflexivity.
  - intro L. reflexivity.
  - intro d. apply (sort_by_strongly_sorted _ _ str_cmp_ok).
  - intros L L' H. unfold GetConsumerAcceptList. rewrite (map_sorted_items_perm L L' H).
    reflexivity.
Qed.

(** C7. Extended form ([GetConsumerAcceptListWithEndpointBasedSecurity]),
    per entry: a network URL with a limit gives a network entry with that
    integer limit, without one the [ValueError] naming the URL; an
    endpoint URL gives an endpoint entry, with the limit when one is given
    and with none otherwise; any other identifier with a limit gives a
    project entry, without one the [ValueError] naming it. "Empty" is
    Python falsiness of the value ([None] or [""]). The whole normaliser
    runs this body over the sorted items in turn and raises the first
    error met. *)
Theorem C7_extended_accept_list :
  (forall u v n, PyStr.contains networks_marker u = true -> int_of_value v = Ok n ->
     consumer_accept_entry_ebs (u, v) = Ok (network_limit u n)) /\
  (forall u v, PyStr.contains networks_marker u = true -> PyStr.truthy v = false ->
     consumer_accept_entry_ebs (u, v) = Err (ValueError (network_limit_required_msg u))) /\
  (forall u v n, PyStr.contains networks_marker u = false ->
     PyStr.contains forwarding_rules_marker u = true -> int_of_value v = Ok n ->
     consumer_accept_entry_ebs (u, v) = Ok (endpoint_limit u (Some n))) /\
  (forall u v, PyStr.contains networks_marker u = false ->
     PyStr.contains forwarding_rules_marker u = true -> PyStr.truthy v = false ->
     consumer_accept_entry_ebs (u, v) = Ok (endpoint_limit u None)) /\
  (forall u v n, PyStr.contains networks_marker u = false ->
     PyStr.contains forwarding_rules_marker u = false -> int_of_value v = Ok n ->
     consumer_accept_entry_ebs (u, v) = Ok (project_limit u n)) /\
  (forall u v, PyStr.contains networks_marker u = false ->
     PyStr.contains forwarding_rules_marker u = false -> PyStr.truthy v = false ->
     consumer_accept_entry_ebs (u, v) = Err (ValueError (project_limit_required_msg u))) /\
  (forall L, GetConsumerAcceptListWithEndpointBasedSecurity L =
             mapM consumer_accept_entry_ebs (concat (map sorted_items L))).
Proof.
  split; [|split; [|split; [|split; [|split; [|split]]]]].
  - intros u v n Hn Hv. simpl. rewrite Hn, (int_of_value_truthy v n Hv), Hv. reflexivity.
  - intros u v Hn Hv. simpl. rewrite Hn, Hv. reflexivity.
  - intros u v n Hn Hf Hv. simpl. rewrite Hn, Hf, (int_of_value_truthy v n Hv), Hv. reflexivity.
  - intros u v Hn Hf Hv. simpl. rewrite Hn, Hf, Hv. reflexivity.
  - intros u v n Hn Hf Hv. simpl. rewrite Hn, Hf, (int_of_value_truthy v n Hv), Hv. reflexivity.
  - intros u v Hn Hf Hv. simpl. rewrite Hn, Hf, Hv. reflexivity.
  - intro L. reflexivity.
Qed.

(** C10. In both normalisers the ['/networks/'] test comes first: an
    identifier containing both markers is a network URL (in the extended
    form, its limit is required), and the basic form never raises the
    unsupported-endpoint error for it. *)
Theorem C10_network_marker_first :
  forall u v, PyStr.contains networks_marker u = true ->
    PyStr.contains forwarding_rules_marker u = true ->
    (forall n, int_of_value v = Ok n ->
       consumer_accept_entry (u, v) = Ok (network_limit u n) /\
       consumer_accept_entry_ebs (u, v) = Ok (network_limit u n)) /\
    (PyStr.truthy v = false ->
       consumer_accept_entry_ebs (u, v) = Err (ValueError (network_limit_required_msg u))) /\
    consumer_accept_entry (u, v) <> Err (ValueError endpoint_unsupported_msg).
Proof.
  intros u v Hn _. split; [|split].
  - intros n Hv. simpl. rewrite Hn, Hv, (int_of_value_truthy v n Hv). split; reflexivity.
  - intro Hv. simpl. rewrite Hn, Hv. reflexivity.
  - simpl. rewrite Hn. unfold int_of_value.
    destruct v as [s|]; [destruct (PyStr.py_int s)|]; simpl; discriminate.
Qed.

(* ------------------------------------------------------------------ *)
(** ** Obsolete-entry pruning *)

Lemma mem_In x l : PyStr.mem x l = true <-> In x l.
Proof.
  unfold PyStr.mem. rewrite existsb_exists. split.
  - intros [y [Hy E]]. apply String.eqb_eq in E. subst. exact Hy.
  - intro H. exists x. split; [exact H | apply String.eqb_refl].
Qed.

Lemma set_consumerAcceptLists_same sa : set_consumerAcceptLists (consumerAcceptLists sa) sa = sa.
Proof. destruct sa; reflexivity. Qed.

Lemma set_consumerRejectLists_same sa : set_consumerRejectLists (consumerRejectLists sa) sa = sa.
Proof. destruct sa; reflexivity. Qed.

Lemma clean_tail_spec old_len new_len e field cf cf' ch :
  clean_tail old_len new_len e field cf = (cf', ch) ->
  (new_len = old_len -> ch = false /\ cf' = cf) /\
  (new_len <> old_len -> ch = true /\
     (e = true -> cf' = if PyStr.mem field cf then cf else (cf ++ [field])%list) /\
     (e = false -> cf' = if PyStr.mem field cf then remove_first field cf else cf)).
Proof.
  unfold clean_tail. destruct (Nat.eqb_spec new_len old_len) as [E|E].
  - intro H. inversion H. split; [intros _; split; reflexivity | intro; contradiction].
  - intro H. split; [intro; contradiction|].
    intros _. destruct e, (PyStr.mem field cf); simpl in H; inversion H; subst;
      repeat split; intro; congruence.
Qed.

Lemma keep_accept_entry_iff ids e :
  keep_accept_entry ids e = true <->
  PyStr.truthy (endpointUrl e) = false \/
  exists u, endpointUrl e = Some u /\ In (PyStr.trailing_id u) ids.
Proof.
  unfold keep_accept_entry. rewrite orb_true_iff, negb_true_iff.
  destruct (endpointUrl e) as [u|]; simpl.
  - rewrite mem_In. split.
    + intros [H|H]; [left; exact H | right; exists u; split; [reflexivity | exact H]].
    + intros [H|[u' [E H]]]; [left; exact H | right; inversion E; subst; exact H].
  - split; [intros _; left; reflexivity | intros _; left; reflexivity].
Qed.

Lemma keep_reject_entry_iff ids e :
  keep_reject_entry ids e = true <->
  PyStr.contains forwarding_rules_marker e = false \/ In (PyStr.trailing_id e) ids.
Proof.
  unfold keep_reject_entry. rewrite orb_true_iff, negb_true_iff, mem_In. reflexivity.
Qed.

(** C4. Each pruning pass keeps exactly the entries its filter keeps
    (accept entries without an endpoint URL, and reject entries without
    ['/forwardingRules/'], always; others when their trailing identifier
    is a connected endpoint), and changes nothing else of the attachment.
    Unchanged length: result [False], [cleared_fields] untouched. Changed
    length: result [True]; an empty list gets its field name appended once
    when absent (and not again when present); a non-empty list has the
    name's first occurrence removed when present. *)
Theorem C4_prune_passes :
  (forall sa ids cf sa' cf' changed,
     CleanObsoleteAcceptedEndpointUrls sa ids cf = (sa', cf', changed) ->
     let old := consumerAcceptLists sa in
     let cleaned := filter (keep_accept_entry ids) old in
     sa' = set_consumerAcceptLists cleaned sa /\
     (forall e, keep_accept_entry ids e = true <->
        PyStr.truthy (endpointUrl e) = false \/
        exists u, endpointUrl e = Some u /\ In (PyStr.trailing_id u) ids) /\
     (length cleaned = length old -> changed = false /\ cf' = cf) /\
     (length cleaned <> length old -> changed = true /\
        (cleaned = [] -> cf' = if PyStr.mem "consumerAcceptLists" cf then cf
                               else (cf ++ ["consumerAcceptLists"])%list) /\
        (cleaned <> [] -> cf' = if PyStr.mem "consumerAcceptLists" cf
                                then remove_first "consumerAcceptLists" cf else cf))) /\
  (forall sa ids cf sa' cf' changed,
     CleanObsoleteRejectedEndpointUrls sa ids cf = (sa', cf', changed) ->
     let old := consumerRejectLists sa in
     let cleaned := filter (keep_reject_entry ids) old in
     sa' = set_consumerRejectLists cleaned sa /\
     (forall e, keep_reject_entry ids e = true <->
        PyStr.contains forwarding_rules_marker e = false \/ In (PyStr.trailing_id e) ids) /\
     (length cleaned = length old -> changed = false /\ cf' = cf) /\
     (length cleaned <> length old -> changed = true /\
        (cleaned = [] -> cf' = if PyStr.mem "consumerRejectLists" cf then cf
                               else (cf ++ ["consumerRejectLists"])%list) /\
        (cleaned <> [] -> cf' = if PyStr.mem "consumerRejectLists" cf
                                then remove_first "consumerRejectLists" cf else cf))).
Proof.
  split.
  - intros sa ids cf sa' cf' changed H. cbv zeta.
    unfold CleanObsoleteAcceptedEndpointUrls in H.
    destruct (consumerAcceptLists sa) as [|x l] eqn:Eold.
    + inversion H; subst. simpl. rewrite <- Eold, set_consumerAcceptLists_same.
      split; [reflexivity|]. split; [apply keep_accept_entry_iff|].
      split; [intros _; split; reflexivity | intro C; contradiction C; reflexivity].
    + destruct (clean_tail _ _ _ _ _) as [cf1 ch1] eqn:Et. inversion H; subst.
      apply clean_tail_spec in Et as [T1 T2].
      split; [reflexivity|]. split; [apply keep_accept_entry_iff|].
      split; [exact T1|]. intro Hne. destruct (T2 Hne) as [Hc [Te Tn]].
      split; [exact Hc|]. split.
      * intro Hnil. apply Te. rewrite Hnil. reflexivity.
      * intro Hnil. apply Tn. destruct (filter _ _); [contradiction Hnil|]; reflexivity.
  - intros sa ids cf sa' cf' changed H. cbv zeta.
    unfold CleanObsoleteRejectedEndpointUrls in H.
    destruct (consumerRejectLists sa) as [|x l] eqn:Eold.
    + inversion H; subst. simpl. rewrite <- Eold, set_consumerRejectLists_same.
      split; [reflexivity|]. split; [apply keep_reject_entry_iff|].
      split; [intros _; split; reflexivity | intro C; contradiction C; reflexivity].
    + destruct (clean_tail _ _ _ _ _) as [cf1 ch1] eqn:Et. inversion H; subst.
      apply clean_tail_spec in Et as [T1 T2].
      split; [reflexivity|]. split; [apply keep_reject_entry_iff|].
      split; [exact T1|]. intro Hne. destruct (T2 Hne) as [Hc [Te Tn]].
      split; [exact Hc|]. split.
      * intro Hnil. apply Te. rewrite Hnil. reflexivity.
      * intro Hnil. apply Tn. destruct (filter _ _); [contradiction Hnil|]; reflexivity.
Qed.

(* ------------------------------------------------------------------ *)
(** ** Frame of the patch builder *)

Lemma field_eq_refl f a : field_eq f a a.
Proof. destruct f; reflexivity. Qed.

Lemma field_eq_trans f a b c : field_eq f a b -> field_eq f b c -> field_eq f a c.
Proof. destruct f; simpl; congruence. Qed.

(** A step that writes [field] when its override [o] is given leaves
    every other field, and all fields when [o] is absent. *)
Ltac frame_step f :=
  intros Hf;
  match goal with
  | |- context [match ?o with Some _ => _ | None => _ end] =>
      destruct o eqn:Eo;
      [ repeat (match goal with |- context [if ?c then _ else _] => destruct c end);
        destruct f; simpl; try reflexivity;
        specialize (Hf eq_refl); discriminate
      | apply field_eq_refl ]
  end.

Section StepFrames.
Variables (support : bool) (args : Args) (old : ServiceAttachment) (st : MState) (f : Field).

Lemma step_target_frame : (f = F_targetService -> target_service args = None) ->
  field_eq f (replacement st) (replacement (step_target args st)).
Proof. unfold step_target. frame_step f. Qed.

Lemma step_description_frame : (f = F_description -> description_arg args = None) ->
  field_eq f (replacement st) (replacement (step_description args old st)).
Proof. unfold step_description. frame_step f. Qed.

Lemma step_connection_preference_frame :
  (f = F_connectionPreference -> connection_preference args = None) ->
  field_eq f (replacement st) (replacement (step_connection_preference args old st)).
Proof. unfold step_connection_preference. frame_step f. Qed.

Lemma step_proxy_protocol_frame : (f = F_enableProxyProtocol -> enable_proxy_protocol args = None) ->
  field_eq f (replacement st) (replacement (step_proxy_protocol args old st)).
Proof. unfold step_proxy_protocol. frame_step f. Qed.

Lemma step_nat_subnets_frame : (f = F_natSubnets -> nat_subnets args = None) ->
  field_eq f (replacement st) (replacement (step_nat_subnets args old st)).
Proof. unfold step_nat_subnets. frame_step f. Qed.

Lemma step_reject_list_frame : (f = F_consumerRejectLists -> consumer_reject_list args = None) ->
  field_eq f (replacement st) (replacement (step_reject_list args old st)).
Proof. unfold step_reject_list. frame_step f. Qed.

Lemma step_reconcile_frame : (f = F_reconcileConnections -> reconcile_connections args = None) ->
  field_eq f (replacement st) (replacement (step_reconcile args old st)).
Proof. unfold step_reconcile. frame_step f. Qed.

Lemma step_propagated_limit_frame :
  (f = F_propagatedConnectionLimit -> propagated_connection_limit args = None) ->
  field_eq f (replacement st) (replacement (step_propagated_limit args old st)).
Proof. unfold step_propagated_limit. frame_step f. Qed.

Lemma step_accept_list_frame st' :
  step_accept_list support args old st = Ok st' ->
  (f = F_consumerAcceptLists -> consumer_accept_list args = None) ->
  field_eq f (replacement st) (replacement st').
Proof.
  unfold step_accept_list. intros H Hf.
  destruct (consumer_accept_list args) eqn:Eo.
  - destruct (get_consumer_accept_list support l); simpl in H; [|discriminate].
    destruct (negb _); inversion H; subst; [|apply field_eq_refl].
    destruct f; simpl; try reflexivity. specialize (Hf eq_refl). discriminate.
  - inversion H; subst. apply field_eq_refl.
Qed.
End StepFrames.

Lemma clean_accepted_shape sa ids cf sa' cf' ch :
  CleanObsoleteAcceptedEndpointUrls sa ids cf = (sa', cf', ch) ->
  sa' = set_consumerAcceptLists (filter (keep_accept_entry ids) (consumerAcceptLists sa)) sa.
Proof.
  unfold CleanObsoleteAcceptedEndpointUrls. destruct (consumerAcceptLists sa) eqn:E.
  - intro H. inversion H; subst. simpl. rewrite <- E. symmetry. apply set_consumerAcceptLists_same.
  - destruct (clean_tail _ _ _ _ _). intro H. inversion H; subst. reflexivity.
Qed.

Lemma clean_rejected_shape sa ids cf sa' cf' ch :
  CleanObsoleteRejectedEndpointUrls sa ids cf = (sa', cf', ch) ->
  sa' = set_consumerRejectLists (filter (keep_reject_entry ids) (consumerRejectLists sa)) sa.
Proof.
  unfold CleanObsoleteRejectedEndpointUrls. destruct (consumerRejectLists sa) eqn:E.
  - intro H. inversion H; subst. simpl. rewrite <- E. symmetry. apply set_consumerRejectLists_same.
  - destruct (clean_tail _ _ _ _ _). intro H. inversion H; subst. reflexivity.
Qed.

Lemma step_remove_obsolete_frame support args st st' f :
  step_remove_obsolete support args st = Ok st' ->
  (f = F_consumerRejectLists \/ f = F_consumerAcceptLists ->
     support && remove_obsolete_endpoint_accept_reject_entries args = false) ->
  field_eq f (replacement st) (replacement st').
Proof.
  unfold step_remove_obsolete. intros H Hf.
  destruct (support && remove_obsolete_endpoint_accept_reject_entries args) eqn:Ep.
  - destruct (_ || _); [discriminate|].
    unfold RemoveObsoleteEndpointEntries in H.
    destruct (CleanObsoleteAcceptedEndpointUrls _ _ _) as [[r1 cf1] c1] eqn:E1.
    destruct (CleanObsoleteRejectedEndpointUrls _ _ _) as [[r2 cf2] c2] eqn:E2.
    inversion H; subst. simpl.
    apply clean_accepted_shape in E1. apply clean_rejected_shape in E2. subst.
    destruct f; try reflexivity.
    + specialize (Hf (or_introl eq_refl)). discriminate.
    + specialize (Hf (or_intror eq_refl)). discriminate.
  - inversion H; subst. apply field_eq_refl.
Qed.

Lemma not_specified {A} (o : option A) : is_specified o = false -> o = None.
Proof. destruct o; [discriminate | reflexivity]. Qed.

(** C3. When the builder returns a copy, every field the invocation does
    not name (see [overridden]: the overridden fields, and both lists when
    the obsolete-entry pass runs) is equal to the fetched snapshot's. The
    snapshot itself is a value passed in: the builder returns a new one. *)
Theorem C3_builder_frame :
  forall support args old cleared0 r cf,
    Modify support args old cleared0 = Ok (Some r, cf) ->
    forall f, overridden support args f = false -> field_eq f old r.
Proof.
  intros support args old cleared0 r cf H f Hf.
  unfold Modify in H.
  destruct (step_accept_list _ _ _ _) as [st7|] eqn:E7; simpl in H; [|discriminate].
  destruct (step_remove_obsolete _ _ _) as [st8|] eqn:E8; simpl in H; [|discriminate].
  destruct (is_updated _); inversion H; subst; clear H.
  assert (Hs : forall A (o : option A), is_specified o = false -> o = None) by
    (intros A o; apply not_specified).
  eapply field_eq_trans; [|apply step_propagated_limit_frame].
  2:{ intro; subst; apply Hs; exact Hf. }
  eapply field_eq_trans; [|apply step_reconcile_frame].
  2:{ intro; subst; apply Hs; exact Hf. }
  eapply field_eq_trans; [|apply (step_remove_obsolete_frame _ _ _ _ _ E8)].
  2:{ intros [-> | ->]; simpl in Hf; apply orb_false_iff in Hf; apply Hf. }
  eapply field_eq_trans; [|apply (step_accept_list_frame _ _ _ _ _ _ E7)].
  2:{ intros ->; simpl in Hf; apply orb_false_iff in Hf; apply Hs, Hf. }
  eapply field_eq_trans; [|apply step_reject_list_frame].
  2:{ intros ->; simpl in Hf; apply orb_false_iff in Hf; apply Hs, Hf. }
  eapply field_eq_trans; [|apply step_nat_subnets_frame].
  2:{ intro; subst; apply Hs; exact Hf. }
  eapply field_eq_trans; [|apply step_proxy_protocol_frame].
  2:{ intro; subst; apply Hs; exact Hf. }
  eapply field_eq_trans; [|apply step_connection_preference_frame].
  2:{ intro; subst; apply Hs; exact Hf. }
  eapply field_eq_trans; [|apply step_description_frame].
  2:{ intro; subst; apply Hs; exact Hf. }
  eapply field_eq_trans; [|apply step_target_frame].
  2:{ intro; subst; apply Hs; exact Hf. }
  apply field_eq_refl.
Qed.

(* ------------------------------------------------------------------ *)
(** ** The [is_updated] flag and no-op detection *)

Lemma option_eqb_refl {A} (eqb : A -> A -> bool) :
  (forall a, eqb a a = true) -> forall x, option_eqb eqb x x = true.
Proof. intros H [a|]; simpl; [apply H | reflexivity]. Qed.

Lemma list_eqb_refl {A} (eqb : A -> A -> bool) :
  (forall a, eqb a a = true) -> forall l, list_eqb eqb l l = true.
Proof. intros H l. induction l as [|a l IH]; simpl; [reflexivity|]. rewrite H, IH. reflexivity. Qed.

Lemma pref_eqb_refl p : pref_eqb p p = true.
Proof. destruct p; reflexivity. Qed.

Lemma limit_eqb_refl c : limit_eqb c c = true.
Proof.
  unfold limit_eqb.
  rewrite !(option_eqb_refl _ String.eqb_refl), (option_eqb_refl _ Z.eqb_refl). reflexivity.
Qed.

(** C1 (failing input). Beta track, [--description=b
    --remove-obsolete-endpoint-accept-reject-entries] on an attachment
    whose description is ["a"] and that has no endpoint entries: the
    description step sets [is_updated], the pruning pass assigns its own
    [False] result to [is_updated], so [_Modify] returns [None] and [Run]
    returns the old resource without a PATCH. *)
Theorem C1_description_update_lost :
  description sa0 <> Some "b" /\
  Modify true (sa_args None (Some "b") None None None true) sa0 [] = Ok (None, []) /\
  Run true (sa_args None (Some "b") None None None true) sa0 = (ReturnedOld sa0, sa0).
Proof. split; [discriminate | split; reflexivity]. Qed.

(** C2 (counterexample). Re-supplying the attachment's own target service
    still marks it updated: [Run] issues a PATCH whose body is the
    unchanged snapshot. *)
Theorem C2_target_always_updates :
  Run true (sa_args (targetService sa0) None None None None false) sa0 = (Patched sa0 [], sa0).
Proof. reflexivity. Qed.

(** C2 (amended). For every overridable field except the target service,
    an override equal to the snapshot's value (repeated fields: equal after
    sorting both sides by the canonical key) leaves the builder's state
    unchanged: nothing written, [is_updated] not set; so does a reordering
    of the reject list or NAT subnets, or of accept-list entries that are
    determined by their sort key. The target service is written and marks
    the result updated whenever it is given. *)
Theorem C2_unchanged_override_no_update :
  forall support args old st,
  (forall d, description_arg args = Some d -> description old = Some d ->
     step_description args old st = st) /\
  (forall tok, connection_preference args = Some tok ->
     GetConnectionPreference tok = connectionPreference old ->
     step_connection_preference args old st = st) /\
  (forall b, enable_proxy_protocol args = Some b -> enableProxyProtocol old = Some b ->
     step_proxy_protocol args old st = st) /\
  (forall l, nat_subnets args = Some l -> sorted_str l = sorted_str (natSubnets old) ->
     step_nat_subnets args old st = st) /\
  (forall l, nat_subnets args = Some l -> Permutation l (natSubnets old) ->
     step_nat_subnets args old st = st) /\
  (forall l, consumer_reject_list args = Some l ->
     sorted_str l = sorted_str (consumerRejectLists old) ->
     step_reject_list args old st = st) /\
  (forall l, consumer_reject_list args = Some l -> Permutation l (consumerRejectLists old) ->
     step_reject_list args old st = st) /\
  (forall al l, consumer_accept_list args = Some al ->
     get_consumer_accept_list support al = Ok l ->
     sort_by (accept_key support) key_cmp l
       = sort_by (accept_key support) key_cmp (consumerAcceptLists old) ->
     step_accept_list support args old st = Ok st) /\
  (forall al l, consumer_accept_list args = Some al ->
     get_consumer_accept_list support al = Ok l ->
     Permutation l (consumerAcceptLists old) ->
     (forall x y, In x l -> In y l -> accept_key support x = accept_key support y -> x = y) ->
     step_accept_list support args old st = Ok st) /\
  (forall b, reconcile_connections args = Some b -> reconcileConnections old = Some b ->
     step_reconcile args old st = st) /\
  (forall n, propagated_connection_limit args = Some n -> propagatedConnectionLimit old = Some n ->
     step_propagated_limit args old st = st) /\
  (forall t, target_service args = Some t ->
     is_updated (step_target args st) = true /\
     targetService (replacement (step_target args st)) = Some t).
Proof.
  intros support args old st.
  assert (Hacc : forall al l, consumer_accept_list args = Some al ->
     get_consumer_accept_list support al = Ok l ->
     sort_by (accept_key support) key_cmp l
       = sort_by (accept_key support) key_cmp (consumerAcceptLists old) ->
     step_accept_list support args old st = Ok st).
  { intros al l Ha Hl Hs. unfold step_accept_list. rewrite Ha, Hl. simpl.
    rewrite Hs, (list_eqb_refl _ limit_eqb_refl). reflexivity. }
  assert (Hnat : forall l, nat_subnets args = Some l -> sorted_str l = sorted_str (natSubnets old) ->
     step_nat_subnets args old st = st).
  { intros l Ha Hs. unfold step_nat_subnets. rewrite Ha, Hs, (list_eqb_refl _ String.eqb_refl).
    reflexivity. }
  assert (Hrej : forall l, consumer_reject_list args = Some l ->
     sorted_str l = sorted_str (consumerRejectLists old) -> step_reject_list args old st = st).
  { intros l Ha Hs. unfold step_reject_list. rewrite Ha, Hs, (list_eqb_refl _ String.eqb_refl).
    reflexivity. }
  split; [|split; [|split; [|split; [|split; [|split; [|split; [|split; [|split; [|split; [|split]]]]]]]]]].
  - intros d Ha Ho. unfold step_description. rewrite Ha, Ho. simpl. rewrite String.eqb_refl. reflexivity.
  - intros tok Ha Ho. unfold step_connection_preference. rewrite Ha, Ho.
    rewrite (option_eqb_refl _ pref_eqb_refl). reflexivity.
  - intros b Ha Ho. unfold step_proxy_protocol. rewrite Ha, Ho. simpl. rewrite eqb_reflx. reflexivity.
  - exact Hnat.
  - intros l Ha P. apply (Hnat l Ha). apply sorted_str_perm. exact P.
  - exact Hrej.
  - intros l Ha P. apply (Hrej l Ha). apply sorted_str_perm. exact P.
  - exact Hacc.
  - intros al l Ha Hl P Hk. apply (Hacc al l Ha Hl).
    apply (sort_by_perm_eq _ _ key_cmp_ok); [exact P | exact Hk].
  - intros b Ha Ho. unfold step_reconcile. rewrite Ha, Ho. simpl. rewrite eqb_reflx. reflexivity.
  - intros n Ha Ho. unfold step_propagated_limit. rewrite Ha, Ho. simpl. rewrite Z.eqb_refl. reflexivity.
  - intros t Ha. unfold step_target. rewrite Ha. split; reflexivity.
Qed.

(* ------------------------------------------------------------------ *)
(** ** Conflicting arguments *)

Lemma step_remove_obsolete_conflict args st :
  remove_obsolete_endpoint_accept_reject_entries args = true ->
  (is_specified (consumer_accept_list args) || is_specified (consumer_reject_list args)) = true ->
  step_remove_obsolete true args st = Err (ConflictingArgumentsException conflicting_msg).
Proof. intros Hr Hs. unfold step_remove_obsolete. rewrite Hr. simpl. rewrite Hs. reflexivity. Qed.

(** C5 (counterexample). With [--remove-obsolete-endpoint-accept-reject-entries]
    and an accept list holding a network URL without a limit, the
    accept-list step raises its own [ValueError] before the conflict check
    is reached. *)
Theorem C5_invalid_accept_list_first :
  Run true (sa_args None None None None
              (Some [[("projects/p/global/networks/n", None)]]) true) sa0
  = (Raised (ValueError (network_limit_required_msg "projects/p/global/networks/n")), sa0).
Proof. reflexivity. Qed.

(** C5 (amended). Beta and alpha tracks: the obsolete-entry flag with an
    explicit accept or reject list raises the conflicting-arguments error,
    unless the accept-list step has already raised: the normaliser for an
    invalid entry, or Python's [sorted] of the new or old accept list for
    sort keys that compare [None] with a value (outside [py_sortable]); in
    every case [Run] issues no PATCH and the stored attachment is
    unchanged. *)
Theorem C5_conflicting_arguments :
  forall args server,
    remove_obsolete_endpoint_accept_reject_entries args = true ->
    (is_specified (consumer_accept_list args) || is_specified (consumer_reject_list args)) = true ->
    snd (Run true args server) = server /\
    (forall al e, consumer_accept_list args = Some al ->
       GetConsumerAcceptListWithEndpointBasedSecurity al = Err e ->
       fst (Run true args server) = Raised e) /\
    ((forall al, consumer_accept_list args = Some al ->
        exists l, GetConsumerAcceptListWithEndpointBasedSecurity al = Ok l /\
          py_sortable (accept_key true) l = true /\
          py_sortable (accept_key true) (consumerAcceptLists server) = true) ->
     fst (Run true args server) = Raised (ConflictingArgumentsException conflicting_msg)).
Proof.
  intros args server Hr Hs.
  assert (HM : forall st7, step_accept_list true args server
      (step_reject_list args server (step_nat_subnets args server (step_proxy_protocol args server
        (step_connection_preference args server (step_description args server
           (step_target args (mk server false [])))))))  = Ok st7 ->
      Modify true args server [] = Err (ConflictingArgumentsException conflicting_msg)).
  { intros st7 E. unfold Modify. rewrite E. simpl.
    rewrite (step_remove_obsolete_conflict args st7 Hr Hs). reflexivity. }
  unfold Run.
  destruct (step_accept_list true args server _) as [st7|e] eqn:E7.
  - rewrite (HM st7 eq_refl). split; [reflexivity|]. split.
    + intros al e Ha He. unfold step_accept_list in E7. rewrite Ha in E7.
      unfold get_consumer_accept_list in E7. rewrite He in E7. discriminate.
    + intros _. reflexivity.
  - assert (Hm : Modify true args server [] = Err e) by (unfold Modify; rewrite E7; reflexivity).
    rewrite Hm. split; [reflexivity|]. split.
    + intros al e' Ha He. unfold step_accept_list in E7. rewrite Ha in E7.
      unfold get_consumer_accept_list in E7. rewrite He in E7. simpl in E7.
      inversion E7. reflexivity.
    + intros Hok. exfalso. unfold step_accept_list in E7.
      destruct (consumer_accept_list args) as [al|] eqn:Ha; [|discriminate].
      destruct (Hok al eq_refl) as [l [Hl _]].
      unfold get_consumer_accept_list in E7. rewrite Hl in E7. simpl in E7.
      destruct (negb _); discriminate.
Qed.

(* ------------------------------------------------------------------ *)
(** ** Clearing an explicitly emptied list *)

Lemma sort_by_cons_nonnil {A K} (key : A -> K) cmp x l : sort_by key cmp (x :: l) <> [].
Proof.
  simpl. destruct (sort_by key cmp l) as [|y l']; simpl; [discriminate|].
  destruct (cmp (key x) (key y)); discriminate.
Qed.

(** C6 (counterexample). Emptying a reject list that is already empty
    writes nothing to [cleared_fields]. *)
Theorem C6_empty_to_empty_not_cleared :
  Modify true (sa_args None None None (Some []) None false) (set_consumerRejectLists [] sa0) []
  = Ok (None, []).
Proof. reflexivity. Qed.

(** C6 (amended). An explicit reject or accept list that yields an empty
    new list, over a non-empty old list, writes the empty list, sets
    [is_updated] and appends the field name to [cleared_fields] without
    checking whether it is already there (for the accept list, when
    Python's [sorted] of the old list raises nothing, [py_sortable]); over
    an empty old list the step does nothing. *)
Theorem C6_explicit_empty_list_cleared :
  forall support args old st,
  (consumer_reject_list args = Some [] -> consumerRejectLists old <> [] ->
     step_reject_list args old st =
       mk (set_consumerRejectLists [] (replacement st)) true
          (cleared_fields st ++ ["consumerRejectLists"])%list) /\
  (consumer_reject_list args = Some [] -> consumerRejectLists old = [] ->
     step_reject_list args old st = st) /\
  (forall al, consumer_accept_list args = Some al -> get_consumer_accept_list support al = Ok [] ->
     consumerAcceptLists old <> [] ->
     py_sortable (accept_key support) (consumerAcceptLists old) = true ->
     step_accept_list support args old st =
       Ok (mk (set_consumerAcceptLists [] (replacement st)) true
              (cleared_fields st ++ ["consumerAcceptLists"])%list)) /\
  (forall al, consumer_accept_list args = Some al -> get_consumer_accept_list support al = Ok [] ->
     consumerAcceptLists old = [] ->
     step_accept_list support args old st = Ok st).
Proof.
  intros support args old st. split; [|split; [|split]].
  - intros Ha Hne. unfold step_reject_list. rewrite Ha. simpl.
    destruct (consumerRejectLists old) as [|x l] eqn:Eo; [contradiction Hne; reflexivity|].
    destruct (sorted_str (x :: l)) eqn:Es;
      [exfalso; apply (sort_by_cons_nonnil (fun s => s) str_cmp x l); exact Es | reflexivity].
  - intros Ha Ho. unfold step_reject_list. rewrite Ha, Ho. reflexivity.
  - intros al Ha Hl Hne _. unfold step_accept_list. rewrite Ha, Hl. simpl.
    destruct (consumerAcceptLists old) as [|x l] eqn:Eo; [contradiction Hne; reflexivity|].
    destruct (sort_by (accept_key support) key_cmp (x :: l)) eqn:Es;
      [exfalso; apply (sort_by_cons_nonnil (accept_key support) key_cmp x l); exact Es | reflexivity].
  - intros al Ha Hl Ho. unfold step_accept_list. rewrite Ha, Hl, Ho. reflexivity.
Qed.

(* ------------------------------------------------------------------ *)
(** ** The service-account name hook *)

(** C9. With [--service-account] given: no project raises the
    required-argument error for [--project]; a project but no location
    raises it for [--location]; in both cases neither [args] nor the
    request is touched. With both, the returned (and mutated) request has
    [apiKey.serviceAccountName] set to
    [projects/{project}/locations/{location}/serviceAccounts/{id}], its
    other fields kept. *)
Theorem C9_service_account_hook :
  forall (args : ApiKeyHooks.HookArgs) (req : ApiKeyHooks.Request) sa_id,
    ApiKeyHooks.service_account args = Some sa_id ->
    (PyStr.truthy (ApiKeyHooks.project args) = false ->
       ApiKeyHooks.ConstructServiceAccountName args req =
         (Err (RequiredArgumentException "--project" "The --project flag is required."),
          (args, req))) /\
    (PyStr.truthy (ApiKeyHooks.project args) = true ->
     PyStr.truthy (ApiKeyHooks.location args) = false ->
       ApiKeyHooks.ConstructServiceAccountName args req =
         (Err (RequiredArgumentException "--location" "The --location flag is required."),
          (args, req))) /\
    (forall p l, ApiKeyHooks.project args = Some p -> ApiKeyHooks.location args = Some l ->
       PyStr.truthy (Some p) = true -> PyStr.truthy (Some l) = true ->
       exists args' req',
         ApiKeyHooks.ConstructServiceAccountName args req = (Ok req', (args', req')) /\
         option_map ApiKeyHooks.serviceAccountName (ApiKeyHooks.apiKey req')
           = Some (Some (ApiKeyHooks.service_account_name p l sa_id)) /\
         ApiKeyHooks.parent req' = ApiKeyHooks.parent req /\
         option_map ApiKeyHooks.apiKeyName (ApiKeyHooks.apiKey req')
           = Some (match ApiKeyHooks.apiKey req with
                   | Some k => ApiKeyHooks.apiKeyName k
                   | None => None
                   end)).
Proof.
  intros args req sa_id Hsa. unfold ApiKeyHooks.ConstructServiceAccountName. rewrite Hsa.
  split; [|split].
  - intro Hp. rewrite Hp. reflexivity.
  - intros Hp Hl. rewrite Hp, Hl. reflexivity.
  - intros p l Hp Hl Tp Tl. rewrite Hp, Hl. simpl in Tp, Tl |- *. rewrite Tp, Tl. simpl.
    eexists; eexists. split; [reflexivity|]. simpl.
    split; [reflexivity|]. split; [reflexivity|].
    destruct (ApiKeyHooks.apiKey req); reflexivity.
Qed.

(* ------------------------------------------------------------------ *)
(** ** Witnesses: the theorems' hypotheses hold at concrete inputs *)

Lemma C2_unchanged_override_no_update_witness :
  step_reject_list (sa_args None None None (Some ["a"; "b"]) None false) sa0 (mk sa0 false [])
    = mk sa0 false [] /\
  step_accept_list true
    (sa_args None None None None (Some [[("p1", Some "1"); ("p2", Some "2")]]) false)
    (set_consumerAcceptLists [project_limit "p2" 2; project_limit "p1" 1] sa0)
    (mk sa0 false []) = Ok (mk sa0 false []).
Proof.
  destruct (C2_unchanged_override_no_update true
              (sa_args None None None (Some ["a"; "b"]) None false) sa0 (mk sa0 false []))
    as (_ & _ & _ & _ & _ & _ & Hrej & _).
  destruct (C2_unchanged_override_no_update true
              (sa_args None None None None (Some [[("p1", Some "1"); ("p2", Some "2")]]) false)
              (set_consumerAcceptLists [project_limit "p2" 2; project_limit "p1" 1] sa0)
              (mk sa0 false []))
    as (_ & _ & _ & _ & _ & _ & _ & _ & Hacc & _).
  split.
  - apply (Hrej ["a"; "b"] eq_refl). apply perm_swap.
  - apply (Hacc [[("p1", Some "1"); ("p2", Some "2")]] [project_limit "p1" 1; project_limit "p2" 2]
             eq_refl eq_refl).
    + apply perm_swap.
    + simpl. intros x y [<-|[<-|[]]] [<-|[<-|[]]]; vm_compute; intro E; first [reflexivity | inversion E].
Defined.

Lemma C3_builder_frame_witness :
  Modify true (sa_args None (Some "b") None None None false) sa0 []
    = Ok (Some (set_description (Some "b") sa0), []) /\
  overridden true (sa_args None (Some "b") None None None false) F_natSubnets = false /\
  field_eq F_natSubnets sa0 (set_description (Some "b") sa0).
Proof.
  split; [reflexivity|]. split; [reflexivity|].
  apply (C3_builder_frame true (sa_args None (Some "b") None None None false) sa0 []
           (set_description (Some "b") sa0) [] eq_refl F_natSubnets eq_refl).
Defined.

Lemma C4_prune_passes_witness :
  CleanObsoleteAcceptedEndpointUrls sa_e3 ["e1"; "e2"] []
    = (set_consumerAcceptLists [] sa_e3, ["consumerAcceptLists"], true) /\
  (length (filter (keep_accept_entry ["e1"; "e2"]) (consumerAcceptLists sa_e3))
     <> length (consumerAcceptLists sa_e3) ->
   true = true /\
   (filter (keep_accept_entry ["e1"; "e2"]) (consumerAcceptLists sa_e3) = [] ->
    ["consumerAcceptLists"] = (if PyStr.mem "consumerAcceptLists" [] then []
                               else ([] ++ ["consumerAcceptLists"])%list)) /\
   (filter (keep_accept_entry ["e1"; "e2"]) (consumerAcceptLists sa_e3) <> [] ->
    ["consumerAcceptLists"] = (if PyStr.mem "consumerAcceptLists" []
                               then remove_first "consumerAcceptLists" [] else []))).
Proof.
  split; [reflexivity|].
  exact (proj2 (proj2 (proj2 (proj1 C4_prune_passes sa_e3 ["e1"; "e2"] []
           (set_consumerAcceptLists [] sa_e3) ["consumerAcceptLists"] true eq_refl)))).
Defined.

Lemma C5_conflicting_arguments_witness :
  (snd (Run true (sa_args None None None (Some ["x"]) None true) sa0) = sa0 /\
   fst (Run true (sa_args None None None (Some ["x"]) None true) sa0)
     = Raised (ConflictingArgumentsException conflicting_msg)) /\
  fst (Run true (sa_args None None None None (Some [[("projects/p", Some "5")]]) true) sa0)
    = Raised (ConflictingArgumentsException conflicting_msg).
Proof.
  split.
  - destruct (C5_conflicting_arguments (sa_args None None None (Some ["x"]) None true) sa0
                eq_refl eq_refl) as (H1 & _ & H3).
    split; [exact H1|]. apply H3. intros al H. discriminate.
  - destruct (C5_conflicting_arguments
                (sa_args None None None None (Some [[("projects/p", Some "5")]]) true) sa0
                eq_refl eq_refl) as (_ & _ & H3).
    apply H3. intros al H. injection H as <-.
    eexists. split; [vm_compute; reflexivity|]. split; vm_compute; reflexivity.
Defined.

Lemma C6_explicit_empty_list_cleared_witness :
  step_reject_list (sa_args None None None (Some []) None false) sa0 (mk sa0 false [])
    = mk (set_consumerRejectLists [] sa0) true ["consumerRejectLists"] /\
  step_accept_list true (sa_args None None None None (Some []) false) sa_e3 (mk sa_e3 false [])
    = Ok (mk (set_consumerAcceptLists [] sa_e3) true ["consumerAcceptLists"]).
Proof.
  split.
  - apply (proj1 (C6_explicit_empty_list_cleared true
                    (sa_args None None None (Some []) None false) sa0 (mk sa0 false []))).
    + reflexivity.
    + simpl. discriminate.
  - apply (proj1 (proj2 (proj2 (C6_explicit_empty_list_cleared true
                    (sa_args None None None None (Some []) false) sa_e3 (mk sa_e3 false []))))
             []).
    + reflexivity.
    + reflexivity.
    + simpl. discriminate.
    + vm_compute. reflexivity.
Defined.

Lemma C7_extended_accept_list_witness :
  consumer_accept_entry_ebs ("projects/p/regions/r/forwardingRules/e1", None)
    = Ok (endpoint_limit "projects/p/regions/r/forwardingRules/e1" None) /\
  consumer_accept_entry_ebs ("projects/p/regions/r/forwardingRules/e1", Some "5")
    = Ok (endpoint_limit "projects/p/regions/r/forwardingRules/e1" (Some 5%Z)) /\
  consumer_accept_entry_ebs ("projects/p/global/networks/n", None)
    = Err (ValueError (network_limit_required_msg "projects/p/global/networks/n")).
Proof.
  destruct C7_extended_accept_list as (H1 & H2 & H3 & H4 & _).
  split; [|split].
  - apply H4; reflexivity.
  - apply H3; reflexivity.
  - apply H2; reflexivity.
Defined.

Lemma C8_basic_accept_list_witness :
  consumer_accept_entry ("projects/p1", Some "10") = Ok (project_limit "projects/p1" 10) /\
  consumer_accept_entry ("projects/p/regions/r/forwardingRules/e1", Some "1")
    = Err (ValueError endpoint_unsupported_msg) /\
  GetConsumerAcceptList [[("b", Some "1"); ("a", Some "2")]]
    = GetConsumerAcceptList [[("a", Some "2"); ("b", Some "1")]].
Proof.
  destruct C8_basic_accept_list as (H1 & H2 & H3 & _ & _ & H6).
  split; [|split].
  - apply H3; reflexivity.
  - apply H2; reflexivity.
  - apply H6. constructor; [|constructor]. split.
    + apply perm_swap.
    + simpl. constructor; [simpl; intros [E|[]]; discriminate | constructor; [intros []|constructor]].
Defined.

Lemma C9_service_account_hook_witness :
  ApiKeyHooks.ConstructServiceAccountName
    {| ApiKeyHooks.service_account := Some "sa1"; ApiKeyHooks.project := None;
       ApiKeyHooks.location := Some "l1" |}
    {| ApiKeyHooks.parent := None; ApiKeyHooks.apiKey := None |}
  = (Err (RequiredArgumentException "--project" "The --project flag is required."),
     ({| ApiKeyHooks.service_account := Some "sa1"; ApiKeyHooks.project := None;
         ApiKeyHooks.location := Some "l1" |},
      {| ApiKeyHooks.parent := None; ApiKeyHooks.apiKey := None |})).
Proof.
  apply (proj1 (C9_service_account_hook
                  {| ApiKeyHooks.service_account := Some "sa1"; ApiKeyHooks.project := None;
                     ApiKeyHooks.location := Some "l1" |}
                  {| ApiKeyHooks.parent := None; ApiKeyHooks.apiKey := None |} "sa1" eq_refl)).
  reflexivity.
Defined.

Lemma C10_network_marker_first_witness :
  consumer_accept_entry_ebs (both_markers_url, None)
    = Err (ValueError (network_limit_required_msg both_markers_url)) /\
  consumer_accept_entry (both_markers_url, Some "3") = Ok (network_limit both_markers_url 3).
Proof.
  destruct (C10_network_marker_first both_markers_url None eq_refl eq_refl) as (_ & H2 & _).
  destruct (C10_network_marker_first both_markers_url (Some "3") eq_refl eq_refl) as (H1 & _ & _).
  split; [apply H2; reflexivity | apply (H1 3%Z eq_refl)].
Defined.

(* ================================================================== *)
(** * Further properties of the update command and its helpers *)

(* ------------------------------------------------------------------ *)
(** ** The builder without overrides, and error propagation *)

(** With no override given and the obsolete-entry flag off, [_Modify]
    returns [None] and leaves [cleared_fields] as it was; [Run] then
    returns the fetched resource and writes nothing. *)
Theorem modify_no_overrides :
  forall support old cleared0,
    Modify support no_args old cleared0 = Ok (None, cleared0) /\
    Run support no_args old = (ReturnedOld old, old).
Proof. intros [|] old cleared0; split; reflexivity. Qed.

(** An accept list the selected normaliser rejects aborts [_Modify] with
    the normaliser's error, whatever the other overrides; [Run] propagates
    it and issues no PATCH. *)
Theorem modify_accept_list_error_propagates :
  forall support args old cleared0 al e,
    consumer_accept_list args = Some al ->
    get_consumer_accept_list support al = Err e ->
    Modify support args old cleared0 = Err e /\
    Run support args old = (Raised e, old).
Proof.
  intros support args old cleared0 al e Ha He.
  assert (Hs : forall st, step_accept_list support args old st = Err e)
    by (intro st; unfold step_accept_list; rewrite Ha, He; reflexivity).
  assert (Hm : forall cl, Modify support args old cl = Err e)
    by (intro cl; unfold Modify; rewrite Hs; reflexivity).
  split; [apply Hm|]. unfold Run. rewrite Hm. reflexivity.
Qed.

Lemma modify_accept_list_error_propagates_witness :
  Modify false (sa_args None (Some "b") None None
                  (Some [[("projects/p/regions/r/forwardingRules/e1", Some "1")]]) false) sa0 []
    = Err (ValueError endpoint_unsupported_msg).
Proof.
  apply (modify_accept_list_error_propagates false
           (sa_args None (Some "b") None None
              (Some [[("projects/p/regions/r/forwardingRules/e1", Some "1")]]) false) sa0 []
           [[("projects/p/regions/r/forwardingRules/e1", Some "1")]]
           (ValueError endpoint_unsupported_msg) eq_refl eq_refl).
Defined.

(** A connection-preference token other than [ACCEPT_AUTOMATIC] and
    [ACCEPT_MANUAL] resolves to [None]; over a snapshot whose preference
    is set, the step writes [None] into the copy and marks it updated. *)
Theorem unknown_connection_preference_clears :
  forall args old st tok p,
    connection_preference args = Some tok ->
    tok <> "ACCEPT_AUTOMATIC" -> tok <> "ACCEPT_MANUAL" ->
    connectionPreference old = Some p ->
    GetConnectionPreference tok = None /\
    step_connection_preference args old st =
      mk (set_connectionPreference None (replacement st)) true (cleared_fields st).
Proof.
  intros args old st tok p Ha H1 H2 Hp.
  assert (Hg : GetConnectionPreference tok = None).
  { unfold GetConnectionPreference.
    destruct (String.eqb_spec tok "ACCEPT_AUTOMATIC"); [contradiction|].
    destruct (String.eqb_spec tok "ACCEPT_MANUAL"); [contradiction|]. reflexivity. }
  split; [exact Hg|]. unfold step_connection_preference. rewrite Ha, Hg, Hp. reflexivity.
Qed.

Lemma unknown_connection_preference_clears_witness :
  GetConnectionPreference "accept_manual" = None /\
  step_connection_preference (pref_args "accept_manual")
    sa0 (mk sa0 false [])
  = mk (set_connectionPreference None sa0) true [].
Proof.
  apply (unknown_connection_preference_clears (pref_args "accept_manual") sa0 (mk sa0 false [])
           "accept_manual" ACCEPT_MANUAL
           eq_refl); [discriminate | discriminate | reflexivity].
Defined.

(** The reject and accept lists the builder writes are the user's lists in
    sorted order: a sorted permutation of the reject-list override, and of
    the normalised accept list ordered by the sort key. *)
Theorem written_lists_sorted :
  forall support args old st,
    (forall rl, consumer_reject_list args = Some rl ->
       step_reject_list args old st = st \/
       (consumerRejectLists (replacement (step_reject_list args old st)) = sorted_str rl /\
        is_updated (step_reject_list args old st) = true /\
        Permutation (sorted_str rl) rl /\
        StronglySorted (le_key (fun s => s) str_cmp) (sorted_str rl))) /\
    (forall al l st', consumer_accept_list args = Some al ->
       get_consumer_accept_list support al = Ok l ->
       step_accept_list support args old st = Ok st' ->
       st' = st \/
       (consumerAcceptLists (replacement st') = sort_by (accept_key support) key_cmp l /\
        is_updated st' = true /\
        Permutation (sort_by (accept_key support) key_cmp l) l /\
        StronglySorted (le_key (accept_key support) key_cmp)
          (sort_by (accept_key support) key_cmp l))).
Proof.
  intros support args old st. split.
  - intros rl Ha. unfold step_reject_list. rewrite Ha.
    destruct (negb _); [right | left; reflexivity].
    split; [reflexivity|]. split; [reflexivity|]. split.
    + apply sort_by_perm.
    + apply (sort_by_strongly_sorted _ _ str_cmp_ok).
  - intros al l st' Ha Hl H. unfold step_accept_list in H. rewrite Ha, Hl in H. simpl in H.
    destruct (negb _); inversion H; subst; [right | left; reflexivity].
    split; [reflexivity|]. split; [reflexivity|]. split.
    + apply sort_by_perm.
    + apply (sort_by_strongly_sorted _ _ key_cmp_ok).
Qed.

Lemma written_lists_sorted_witness :
  consumerRejectLists (replacement
    (step_reject_list (sa_args None None None (Some ["z"; "c"; "m"]) None false) sa0
       (mk sa0 false []))) = ["c"; "m"; "z"].
Proof.
  destruct (written_lists_sorted true (sa_args None None None (Some ["z"; "c"; "m"]) None false)
              sa0 (mk sa0 false [])) as [H _].
  destruct (H ["z"; "c"; "m"] eq_refl) as [E | [E _]].
  - discriminate E.
  - exact E.
Defined.

(* ------------------------------------------------------------------ *)
(** ** The obsolete-entry pass *)

Lemma filter_all_true {A} (f : A -> bool) l :
  (forall x, In x l -> f x = true) -> filter f l = l.
Proof.
  induction l as [|x l IH]; simpl; intro H; [reflexivity|].
  rewrite (H x (or_introl eq_refl)), IH; [reflexivity|]. intros y Hy. apply H. right. exact Hy.
Qed.

Lemma filter_length_le {A} (f : A -> bool) l : length (filter f l) <= length l.
Proof. induction l as [|x l IH]; simpl; [lia|]. destruct (f x); simpl; lia. Qed.

Lemma filter_length_eq {A} (f : A -> bool) l : length (filter f l) = length l -> filter f l = l.
Proof.
  induction l as [|x l IH]; simpl; intro H; [reflexivity|].
  destruct (f x).
  - simpl in H. rewrite IH; [reflexivity | lia].
  - pose proof (filter_length_le f l). lia.
Qed.

Lemma clean_accepted_fixed sa ids cf :
  (forall e, In e (consumerAcceptLists sa) -> keep_accept_entry ids e = true) ->
  CleanObsoleteAcceptedEndpointUrls sa ids cf = (sa, cf, false).
Proof.
  intro H. unfold CleanObsoleteAcceptedEndpointUrls.
  destruct (consumerAcceptLists sa) as [|x l] eqn:E; [reflexivity|].
  rewrite (filter_all_true _ _ H). unfold clean_tail. rewrite Nat.eqb_refl.
  rewrite <- E, set_consumerAcceptLists_same. reflexivity.
Qed.

Lemma clean_rejected_fixed sa ids cf :
  (forall e, In e (consumerRejectLists sa) -> keep_reject_entry ids e = true) ->
  CleanObsoleteRejectedEndpointUrls sa ids cf = (sa, cf, false).
Proof.
  intro H. unfold CleanObsoleteRejectedEndpointUrls.
  destruct (consumerRejectLists sa) as [|x l] eqn:E; [reflexivity|].
  rewrite (filter_all_true _ _ H). unfold clean_tail. rewrite Nat.eqb_refl.
  rewrite <- E, set_consumerRejectLists_same. reflexivity.
Qed.

Lemma connected_ids_set_lists sa a r :
  GetConnectedEndpointIds (set_consumerRejectLists r (set_consumerAcceptLists a sa))
  = GetConnectedEndpointIds sa.
Proof. reflexivity. Qed.

(** When every endpoint entry of both lists names a connected endpoint,
    the obsolete-entry pass returns [False] and changes neither the
    attachment nor [cleared_fields]. *)
Theorem prune_all_connected_noop :
  forall r cf,
    (forall e u, In e (consumerAcceptLists r) -> endpointUrl e = Some u -> u <> EmptyString ->
       In (PyStr.trailing_id u) (GetConnectedEndpointIds r)) ->
    (forall e, In e (consumerRejectLists r) -> PyStr.contains forwarding_rules_marker e = true ->
       In (PyStr.trailing_id e) (GetConnectedEndpointIds r)) ->
    RemoveObsoleteEndpointEntries r cf = (r, cf, false).
Proof.
  intros r cf HA HR. unfold RemoveObsoleteEndpointEntries.
  rewrite clean_accepted_fixed.
  - rewrite clean_rejected_fixed; [reflexivity|].
    intros e He. apply keep_reject_entry_iff.
    destruct (PyStr.contains forwarding_rules_marker e) eqn:Ec; [right; apply HR; assumption | left; reflexivity].
  - intros e He. apply keep_accept_entry_iff.
    destruct (endpointUrl e) as [u|] eqn:Eu; [|left; reflexivity].
    destruct u as [|c u'] eqn:Eu'; [left; reflexivity|].
    right. exists (String c u'). split; [reflexivity|]. apply (HA e); [exact He | exact Eu | discriminate].
Qed.

Lemma prune_all_connected_noop_witness :
  RemoveObsoleteEndpointEntries
    (set_consumerAcceptLists [endpoint_limit e3_url None; project_limit "p" 1]
       {| targetService := None; description := None; connectionPreference := None;
          enableProxyProtocol := None; natSubnets := []; consumerRejectLists := ["x"];
          consumerAcceptLists := [];
          connectedEndpoints := [{| endpointWithId := Some "projects/c/regions/r/forwardingRules/e3" |}];
          reconcileConnections := None; propagatedConnectionLimit := None |}) []
  = (set_consumerAcceptLists [endpoint_limit e3_url None; project_limit "p" 1]
       {| targetService := None; description := None; connectionPreference := None;
          enableProxyProtocol := None; natSubnets := []; consumerRejectLists := ["x"];
          consumerAcceptLists := [];
          connectedEndpoints := [{| endpointWithId := Some "projects/c/regions/r/forwardingRules/e3" |}];
          reconcileConnections := None; propagatedConnectionLimit := None |}, [], false).
Proof.
  apply prune_all_connected_noop.
  - simpl. intros e u [<-|[<-|[]]]; simpl; intro E; inversion E; subst; intros _; left; reflexivity.
  - simpl. intros e [<-|[]]. vm_compute. discriminate.
Defined.

(** Running the obsolete-entry pass on its own output changes nothing and
    reports [False]. *)
Theorem prune_idempotent :
  forall r cf r' cf' u,
    RemoveObsoleteEndpointEntries r cf = (r', cf', u) ->
    RemoveObsoleteEndpointEntries r' cf' = (r', cf', false).
Proof.
  intros r cf r' cf' u H. unfold RemoveObsoleteEndpointEntries in H.
  destruct (CleanObsoleteAcceptedEndpointUrls _ _ _) as [[r1 cf1] c1] eqn:E1.
  destruct (CleanObsoleteRejectedEndpointUrls _ _ _) as [[r2 cf2] c2] eqn:E2.
  inversion H; subst; clear H.
  apply clean_accepted_shape in E1. apply clean_rejected_shape in E2. subst.
  unfold RemoveObsoleteEndpointEntries. rewrite connected_ids_set_lists.
  rewrite clean_accepted_fixed.
  - rewrite clean_rejected_fixed; [reflexivity|].
    intros e He. simpl in He. apply filter_In in He. apply He.
  - intros e He. simpl in He. apply filter_In in He. apply He.
Qed.

Lemma prune_idempotent_witness :
  RemoveObsoleteEndpointEntries (set_consumerAcceptLists [] sa_e3) ["consumerAcceptLists"]
  = (set_consumerAcceptLists [] sa_e3, ["consumerAcceptLists"], false).
Proof.
  apply (prune_idempotent sa_e3 [] (set_consumerAcceptLists [] sa_e3) ["consumerAcceptLists"] true).
  reflexivity.
Defined.

(** [GetConnectedEndpointIds]: an identifier is connected exactly when
    some connected endpoint has a non-empty [endpointWithId] whose
    trailing path segment it is; endpoints without one are skipped. *)
Theorem connected_endpoint_ids_mem :
  forall sa x,
    In x (GetConnectedEndpointIds sa) <->
    exists ep u, In ep (connectedEndpoints sa) /\ endpointWithId ep = Some u /\
                 u <> EmptyString /\ PyStr.trailing_id u = x.
Proof.
  intros sa x. unfold GetConnectedEndpointIds. rewrite in_map_iff. split.
  - intros [ep [Ex Hin]]. apply filter_In in Hin as [Hin Ht].
    destruct (endpointWithId ep) as [[|c u]|] eqn:Eu; simpl in Ht; try discriminate.
    exists ep, (String c u). split; [exact Hin|]. split; [exact Eu|]. split; [discriminate | exact Ex].
  - intros [ep [u [Hin [Eu [Hne Ex]]]]]. exists ep. rewrite Eu. split; [exact Ex|].
    apply filter_In. split; [exact Hin|]. rewrite Eu. destruct u; [contradiction Hne; reflexivity | reflexivity].
Qed.

Lemma clean_accepted_fresh sa ids cf sa' cf' ch :
  ~ In "consumerAcceptLists" cf ->
  CleanObsoleteAcceptedEndpointUrls sa ids cf = (sa', cf', ch) ->
  cf' = (cf ++ match consumerAcceptLists sa, consumerAcceptLists sa' with
               | _ :: _, [] => ["consumerAcceptLists"] | _, _ => [] end)%list /\
  (ch = true <-> consumerAcceptLists sa' <> consumerAcceptLists sa).
Proof.
  intros Hn H. pose proof (clean_accepted_shape _ _ _ _ _ _ H) as Hs. subst sa'. simpl.
  assert (Hm : PyStr.mem "consumerAcceptLists" cf = false)
    by (destruct (PyStr.mem _ _) eqn:E; [apply mem_In in E; contradiction | reflexivity]).
  unfold CleanObsoleteAcceptedEndpointUrls in H.
  destruct (consumerAcceptLists sa) as [|a l] eqn:E.
  - inversion H; subst. rewrite app_nil_r. split; [reflexivity|]. split; [discriminate | intro C; contradiction C; reflexivity].
  - remember (filter (keep_accept_entry ids) (a :: l)) as fl eqn:Efl.
    destruct (clean_tail _ _ _ _ _) as [c0 b0] eqn:Ec. inversion H; subst cf' ch. clear H.
    apply clean_tail_spec in Ec as [H1 H2]. rewrite Hm in H2.
    destruct (Nat.eq_dec (length fl) (length (a :: l))) as [Eq|Ne].
    + destruct (H1 Eq) as [-> ->].
      assert (fl = a :: l) by (subst fl; apply filter_length_eq; exact Eq). subst fl. rewrite H.
      rewrite app_nil_r. split; [reflexivity|]. split; [discriminate | intro C; contradiction C; reflexivity].
    + destruct (H2 Ne) as [-> [He Hf]]. destruct fl as [|b fl'].
      * rewrite (He eq_refl). split; [reflexivity|]. split; [intros _; discriminate | reflexivity].
      * rewrite (Hf eq_refl), app_nil_r. split; [reflexivity|].
        split; [intros _ C; rewrite C in Ne; contradiction Ne; reflexivity | reflexivity].
Qed.

Lemma clean_rejected_fresh sa ids cf sa' cf' ch :
  ~ In "consumerRejectLists" cf ->
  CleanObsoleteRejectedEndpointUrls sa ids cf = (sa', cf', ch) ->
  cf' = (cf ++ match consumerRejectLists sa, consumerRejectLists sa' with
               | _ :: _, [] => ["consumerRejectLists"] | _, _ => [] end)%list /\
  (ch = true <-> consumerRejectLists sa' <> consumerRejectLists sa).
Proof.
  intros Hn H. pose proof (clean_rejected_shape _ _ _ _ _ _ H) as Hs. subst sa'. simpl.
  assert (Hm : PyStr.mem "consumerRejectLists" cf = false)
    by (destruct (PyStr.mem _ _) eqn:E; [apply mem_In in E; contradiction | reflexivity]).
  unfold CleanObsoleteRejectedEndpointUrls in H.
  destruct (consumerRejectLists sa) as [|a l] eqn:E.
  - inversion H; subst. rewrite app_nil_r. split; [reflexivity|]. split; [discriminate | intro C; contradiction C; reflexivity].
  - remember (filter (keep_reject_entry ids) (a :: l)) as fl eqn:Efl.
    destruct (clean_tail _ _ _ _ _) as [c0 b0] eqn:Ec. inversion H; subst cf' ch. clear H.
    apply clean_tail_spec in Ec as [H1 H2]. rewrite Hm in H2.
    destruct (Nat.eq_dec (length fl) (length (a :: l))) as [Eq|Ne].
    + destruct (H1 Eq) as [-> ->].
      assert (fl = a :: l) by (subst fl; apply filter_length_eq; exact Eq). subst fl. rewrite H.
      rewrite app_nil_r. split; [reflexivity|]. split; [discriminate | intro C; contradiction C; reflexivity].
    + destruct (H2 Ne) as [-> [He Hf]]. destruct fl as [|b fl'].
      * rewrite (He eq_refl). split; [reflexivity|]. split; [intros _; discriminate | reflexivity].
      * rewrite (Hf eq_refl), app_nil_r. split; [reflexivity|].
        split; [intros _ C; rewrite C in Ne; contradiction Ne; reflexivity | reflexivity].
Qed.

Lemma prune_cleared_from_empty :
  forall r r' cf u,
    RemoveObsoleteEndpointEntries r [] = (r', cf, u) ->
    NoDup cf /\
    (In "consumerAcceptLists" cf <-> consumerAcceptLists r <> [] /\ consumerAcceptLists r' = []) /\
    (In "consumerRejectLists" cf <-> consumerRejectLists r <> [] /\ consumerRejectLists r' = []) /\
    (u = true <-> consumerAcceptLists r' <> consumerAcceptLists r \/
                  consumerRejectLists r' <> consumerRejectLists r).
Proof.
  intros r r' cf u H. unfold RemoveObsoleteEndpointEntries in H.
  destruct (CleanObsoleteAcceptedEndpointUrls _ _ _) as [[r1 cf1] c1] eqn:E1.
  destruct (CleanObsoleteRejectedEndpointUrls _ _ _) as [[r2 cf2] c2] eqn:E2.
  inversion H; subst r' cf u; clear H.
  pose proof (clean_accepted_shape _ _ _ _ _ _ E1) as S1.
  pose proof (clean_rejected_shape _ _ _ _ _ _ E2) as S2.
  apply clean_accepted_fresh in E1 as [Hcf1 Hc1]; [|intros []].
  apply clean_rejected_fresh in E2 as [Hcf2 Hc2].
  2:{ subst cf1. destruct (consumerAcceptLists r), (consumerAcceptLists r1); simpl; intuition discriminate. }
  rewrite Bool.orb_true_iff, Hc1, Hc2. subst r2 cf2 cf1 r1.
  unfold set_consumerAcceptLists, set_consumerRejectLists; simpl.
  generalize (filter (keep_accept_entry (GetConnectedEndpointIds r)) (consumerAcceptLists r)) as FA.
  generalize (filter (keep_reject_entry (GetConnectedEndpointIds r)) (consumerRejectLists r)) as FR.
  intros FR FA.
  destruct (consumerAcceptLists r), FA, (consumerRejectLists r), FR; simpl;
  (split; [repeat constructor; simpl; intuition discriminate|]);
  repeat split; simpl; intuition (try discriminate; try congruence).
Qed.

(** Started from an empty [cleared_fields], the obsolete-entry pass
    records each list name at most once, records a list exactly when the
    pass emptied a non-empty list, and returns [True] exactly when one of
    the two lists lost an entry. *)
Theorem prune_from_empty_cleared :
  forall r r' cf u,
    RemoveObsoleteEndpointEntries r [] = (r', cf, u) ->
    NoDup cf /\
    (In "consumerAcceptLists" cf <-> consumerAcceptLists r <> [] /\ consumerAcceptLists r' = []) /\
    (In "consumerRejectLists" cf <-> consumerRejectLists r <> [] /\ consumerRejectLists r' = []) /\
    (u = true <-> consumerAcceptLists r' <> consumerAcceptLists r \/
                  consumerRejectLists r' <> consumerRejectLists r).
Proof. exact prune_cleared_from_empty. Qed.

Lemma prune_from_empty_cleared_witness :
  RemoveObsoleteEndpointEntries sa_e3 []
    = (set_consumerAcceptLists [] sa_e3, ["consumerAcceptLists"], true) /\
  (In "consumerAcceptLists" ["consumerAcceptLists"] <->
     consumerAcceptLists sa_e3 <> [] /\ consumerAcceptLists (set_consumerAcceptLists [] sa_e3) = []).
Proof.
  split; [reflexivity|].
  exact (proj1 (proj2 (prune_from_empty_cleared sa_e3 (set_consumerAcceptLists [] sa_e3)
                         ["consumerAcceptLists"] true eq_refl))).
Defined.

(* ------------------------------------------------------------------ *)
(** ** The field mask sent with the PATCH *)

Lemma simple_steps_lists_frame args old st :
  lists_frame (step_target args st) st /\
  lists_frame (step_description args old st) st /\
  lists_frame (step_connection_preference args old st) st /\
  lists_frame (step_proxy_protocol args old st) st /\
  lists_frame (step_nat_subnets args old st) st /\
  lists_frame (step_reconcile args old st) st /\
  lists_frame (step_propagated_limit args old st) st.
Proof.
  unfold lists_frame, step_target, step_description, step_connection_preference,
    step_proxy_protocol, step_nat_subnets, step_reconcile, step_propagated_limit.
  repeat split;
  repeat (match goal with |- context [match ?x with _ => _ end] => destruct x end);
  reflexivity.
Qed.

Lemma NoDup_snoc {A} (l : list A) a : NoDup l -> ~ In a l -> NoDup (l ++ [a])%list.
Proof.
  intros H Hn. apply (Permutation_NoDup (l := a :: l)).
  - apply Permutation_cons_append.
  - constructor; assumption.
Qed.

Lemma reject_step_from_empty args old st :
  cleared_fields st = [] ->
  NoDup (cleared_fields (step_reject_list args old st)) /\
  forall x, In x (cleared_fields (step_reject_list args old st)) ->
    x = "consumerRejectLists" /\ consumerRejectLists (replacement (step_reject_list args old st)) = [].
Proof.
  intro E. unfold step_reject_list.
  destruct (consumer_reject_list args) as [rl|];
    [destruct (negb _)|]; [| rewrite E; split; [constructor | intros x []] ..].
  simpl. destruct (sorted_str rl) eqn:Es; rewrite E; simpl.
  - split; [repeat constructor; intros []|]. intros x [<-|[]]. split; reflexivity.
  - split; [constructor | intros x []].
Qed.

Lemma accept_step_cleared support args old st st' :
  NoDup (cleared_fields st) ->
  (forall x, In x (cleared_fields st) ->
     x = "consumerRejectLists" /\ consumerRejectLists (replacement st) = []) ->
  step_accept_list support args old st = Ok st' ->
  NoDup (cleared_fields st') /\
  forall x, In x (cleared_fields st') ->
    (x = "consumerRejectLists" /\ consumerRejectLists (replacement st') = []) \/
    (x = "consumerAcceptLists" /\ consumerAcceptLists (replacement st') = []).
Proof.
  intros Hd Hq. unfold step_accept_list.
  destruct (consumer_accept_list args) as [al|].
  2:{ intro H. inversion H; subst. split; [exact Hd | intros x Hx; left; auto]. }
  destruct (get_consumer_accept_list support al) as [cal|e]; simpl; [|discriminate].
  destruct (negb _); intro H; inversion H; subst; clear H.
  2:{ split; [exact Hd | intros x Hx; left; auto]. }
  simpl. destruct (sort_by _ _ cal) eqn:Es; simpl.
  - split.
    + apply NoDup_snoc; [exact Hd|]. intro C. destruct (Hq _ C) as [C' _]. discriminate C'.
    + intros x Hx. apply in_app_or in Hx as [Hx|[<-|[]]].
      * left. exact (Hq x Hx).
      * right. split; reflexivity.
  - split; [exact Hd | intros x Hx; left; exact (Hq x Hx)].
Qed.

Lemma modify_cleared_fields support args old body cl :
  Modify support args old [] = Ok (Some body, cl) ->
  NoDup cl /\
  forall x, In x cl ->
    (x = "consumerRejectLists" /\ consumerRejectLists body = []) \/
    (x = "consumerAcceptLists" /\ consumerAcceptLists body = []).
Proof.
  unfold Modify. cbv zeta.
  set (st5 := step_nat_subnets args old (step_proxy_protocol args old
                (step_connection_preference args old (step_description args old
                   (step_target args (mk old false [])))))).
  assert (E5 : cleared_fields st5 = []).
  { subst st5.
    destruct (simple_steps_lists_frame args old (mk old false [])) as (F1 & _).
    destruct (simple_steps_lists_frame args old (step_target args (mk old false []))) as (_ & F2 & _).
    destruct (simple_steps_lists_frame args old (step_description args old (step_target args (mk old false []))))
      as (_ & _ & F3 & _).
    destruct (simple_steps_lists_frame args old (step_connection_preference args old
               (step_description args old (step_target args (mk old false []))))) as (_ & _ & _ & F4 & _).
    destruct (simple_steps_lists_frame args old (step_proxy_protocol args old (step_connection_preference args old
               (step_description args old (step_target args (mk old false [])))))) as (_ & _ & _ & _ & F5 & _).
    destruct F1 as [F1 _], F2 as [F2 _], F3 as [F3 _], F4 as [F4 _], F5 as [F5 _].
    rewrite F5, F4, F3, F2, F1. reflexivity. }
  destruct (reject_step_from_empty args old st5 E5) as [D6 Q6].
  destruct (step_accept_list support args old (step_reject_list args old st5)) as [st7|e] eqn:E7;
    simpl; [|discriminate].
  destruct (accept_step_cleared _ _ _ _ _ D6 Q6 E7) as [D7 Q7].
  assert (P8 : forall st8, step_remove_obsolete support args st7 = Ok st8 ->
            NoDup (cleared_fields st8) /\
            forall x, In x (cleared_fields st8) ->
              (x = "consumerRejectLists" /\ consumerRejectLists (replacement st8) = []) \/
              (x = "consumerAcceptLists" /\ consumerAcceptLists (replacement st8) = [])).
  { intros st8. unfold step_remove_obsolete.
    destruct (support && remove_obsolete_endpoint_accept_reject_entries args).
    2:{ intro H. inversion H; subst. split; assumption. }
    destruct (is_specified (consumer_accept_list args)) eqn:Ea; [discriminate|].
    destruct (is_specified (consumer_reject_list args)) eqn:Er; [discriminate|]. simpl.
    assert (E7' : cleared_fields st7 = []).
    { unfold step_accept_list in E7. destruct (consumer_accept_list args); [discriminate|].
      inversion E7; subst. unfold step_reject_list. destruct (consumer_reject_list args); [discriminate|].
      exact E5. }
    rewrite E7'.
    destruct (RemoveObsoleteEndpointEntries (replacement st7) []) as [[r cf] u] eqn:ER.
    intro H. inversion H; subst; clear H. simpl.
    destruct (prune_cleared_from_empty _ _ _ _ ER) as (D & HA & HR & _).
    split; [exact D|]. intros x Hx.
    destruct (String.eqb_spec x "consumerAcceptLists") as [->|Nx].
    - right. split; [reflexivity|]. apply HA. exact Hx.
    - destruct (String.eqb_spec x "consumerRejectLists") as [->|Nr].
      + left. split; [reflexivity|]. apply HR. exact Hx.
      + destruct (Q7 x) as [[C _]|[C _]]; try contradiction.
        unfold RemoveObsoleteEndpointEntries in ER.
        destruct (CleanObsoleteAcceptedEndpointUrls _ _ _) as [[r1 cf1] c1] eqn:E1.
        destruct (CleanObsoleteRejectedEndpointUrls _ _ _) as [[r2 cf2] c2] eqn:E2.
        inversion ER; subst.
        apply clean_accepted_fresh in E1 as [H1 _]; [|intros []].
        apply clean_rejected_fresh in E2 as [H2 _].
        * subst. simpl in Hx. exfalso.
          destruct (consumerAcceptLists (replacement st7)), (consumerAcceptLists r1),
            (consumerRejectLists r1), (consumerRejectLists r); simpl in Hx;
            intuition congruence.
        * subst. destruct (consumerAcceptLists (replacement st7)), (consumerAcceptLists r1);
            simpl; intuition discriminate. }
  destruct (step_remove_obsolete support args st7) as [st8|e] eqn:E8; simpl; [|discriminate].
  destruct (P8 st8 eq_refl) as [D8 Q8].
  destruct (simple_steps_lists_frame args old st8) as (_ & _ & _ & _ & _ & (G1 & G2 & G3) & _).
  destruct (simple_steps_lists_frame args old (step_reconcile args old st8))
    as (_ & _ & _ & _ & _ & _ & (H1 & H2 & H3)).
  destruct (is_updated _); intro H; inversion H; subst; clear H.
  rewrite H1, G1. split; [exact D8|]. intros x Hx. rewrite H2, G2, H3, G3. exact (Q8 x Hx).
Qed.

(** [Run]: when a PATCH is issued, each field named for [IncludeFields]
    is named once, and is one of the two consumer lists, sent empty in the
    PATCH body. *)
Theorem run_include_fields_only_emptied_lists :
  forall support args server body cl s',
    Run support args server = (Patched body cl, s') ->
    NoDup cl /\
    forall x, In x cl ->
      (x = "consumerRejectLists" /\ consumerRejectLists body = []) \/
      (x = "consumerAcceptLists" /\ consumerAcceptLists body = []).
Proof.
  intros support args server body cl s' H. unfold Run in H.
  destruct (Modify support args server []) as [[[r|] c]|e] eqn:E; inversion H; subst.
  apply (modify_cleared_fields _ _ _ _ _ E).
Qed.

Lemma run_include_fields_only_emptied_lists_witness :
  Run true (sa_args None None None None None true) sa_e3
    = (Patched (set_consumerAcceptLists [] sa_e3) ["consumerAcceptLists"],
       set_consumerAcceptLists [] sa_e3) /\
  NoDup ["consumerAcceptLists"].
Proof.
  split; [reflexivity|].
  exact (proj1 (run_include_fields_only_emptied_lists true (sa_args None None None None None true) sa_e3
                  (set_consumerAcceptLists [] sa_e3) ["consumerAcceptLists"]
                  (set_consumerAcceptLists [] sa_e3) eq_refl)).
Defined.

(* ------------------------------------------------------------------ *)
(** ** The accept-list normalisers, list level *)

Lemma mapM_ok {A B} (f : A -> result B) l l' :
  mapM f l = Ok l' -> Forall2 (fun x y => f x = Ok y) l l'.
Proof.
  revert l'. induction l as [|x l IH]; simpl; intros l' H.
  - inversion H. constructor.
  - destruct (f x) as [y|e] eqn:Ef; simpl in H; [|discriminate].
    destruct (mapM f l) as [ys|e] eqn:Em; simpl in H; [|discriminate].
    inversion H; subst. constructor; [exact Ef | apply IH; reflexivity].
Qed.

Lemma mapM_err {A B} (f : A -> result B) l e :
  mapM f l = Err e -> exists x, In x l /\ f x = Err e.
Proof.
  induction l as [|x l IH]; simpl; intro H; [discriminate|].
  destruct (f x) as [y|e'] eqn:Ef; simpl in H.
  - destruct (mapM f l) as [ys|e''] eqn:Em; simpl in H; [discriminate|].
    inversion H; subst. destruct (IH eq_refl) as [z [Hz Ez]]. exists z. split; [right|]; assumption.
  - inversion H; subst. exists x. split; [left; reflexivity | exact Ef].
Qed.

Lemma mapM_fails {A B} (f : A -> result B) l x e :
  In x l -> f x = Err e -> exists e', mapM f l = Err e'.
Proof.
  induction l as [|y l IH]; simpl; [intros []|]. intros [<-|Hin] Hx.
  - rewrite Hx. simpl. eexists; reflexivity.
  - destruct (f y) as [z|e'] eqn:Ef; simpl; [|eexists; reflexivity].
    destruct (IH Hin Hx) as [e' ->]. simpl. eexists; reflexivity.
Qed.

Lemma items_in (L : list (dict (option string))) d kv :
  In d L -> In kv d -> In kv (concat (map sorted_items L)).
Proof.
  intros Hd Hkv. apply in_concat. exists (sorted_items d). split.
  - apply in_map. exact Hd.
  - unfold sorted_items. apply (Permutation_in _ (Permutation_sym (sort_by_perm fst str_cmp d))). exact Hkv.
Qed.

(** On success both normalisers return one message per key of the input
    mappings, in the order of the input list and, within a mapping, in
    sorted key order; each message carries its key in exactly one of the
    three identifier fields. The basic form always yields a project or
    network message with a limit; the extended form further yields
    endpoint messages, and only those may lack a limit. *)
Theorem accept_list_output_shape :
  (forall L l, GetConsumerAcceptList L = Ok l ->
     Forall2 (fun kv e => exists n, e = network_limit (fst kv) n \/ e = project_limit (fst kv) n)
       (concat (map sorted_items L)) l) /\
  (forall L l, GetConsumerAcceptListWithEndpointBasedSecurity L = Ok l ->
     Forall2 (fun kv e => (exists n, e = network_limit (fst kv) n \/ e = project_limit (fst kv) n) \/
                          (exists o, e = endpoint_limit (fst kv) o))
       (concat (map sorted_items L)) l).
Proof.
  split; intros L l H; apply mapM_ok in H; eapply Forall2_impl; try exact H;
    intros [k v] e He; simpl in He |- *.
  - destruct (PyStr.contains networks_marker k);
      [|destruct (PyStr.contains forwarding_rules_marker k); [discriminate|]];
      destruct (int_of_value v) as [n|]; simpl in He; try discriminate;
      inversion He; subst; exists n; [left|right]; reflexivity.
  - destruct (PyStr.contains networks_marker k);
      [|destruct (PyStr.contains forwarding_rules_marker k)];
      destruct (PyStr.truthy v); simpl in He; try discriminate;
      try (destruct (int_of_value v) as [n|]; simpl in He; try discriminate);
      inversion He; subst;
      first [ left; eexists; left; reflexivity | left; eexists; right; reflexivity
            | right; eexists; reflexivity ].
Qed.

Lemma accept_list_output_shape_witness :
  GetConsumerAcceptList [[("projects/p/global/networks/n", Some "5"); ("p1", Some "2")]]
    = Ok [project_limit "p1" 2; network_limit "projects/p/global/networks/n" 5] /\
  Forall2 (fun kv e => exists n, e = network_limit (fst kv) n \/ e = project_limit (fst kv) n)
    (concat (map sorted_items [[("projects/p/global/networks/n", Some "5"); ("p1", Some "2")]]))
    [project_limit "p1" 2; network_limit "projects/p/global/networks/n" 5].
Proof.
  split; [reflexivity|].
  apply (proj1 accept_list_output_shape). reflexivity.
Defined.

(** The normalisers raise only errors of their own entries: the error of
    a failed call is the error of some key of the input; and the basic
    form raises whenever some key is a forwarding-rule URL that is not a
    network URL, whatever the order of the keys. *)
Theorem accept_list_errors :
  (forall L e, GetConsumerAcceptList L = Err e ->
     exists kv, In kv (concat (map sorted_items L)) /\ consumer_accept_entry kv = Err e) /\
  (forall L e, GetConsumerAcceptListWithEndpointBasedSecurity L = Err e ->
     exists kv, In kv (concat (map sorted_items L)) /\ consumer_accept_entry_ebs kv = Err e) /\
  (forall L d k v, In d L -> In (k, v) d ->
     PyStr.contains networks_marker k = false -> PyStr.contains forwarding_rules_marker k = true ->
     exists e, GetConsumerAcceptList L = Err e).
Proof.
  split; [|split].
  - intros L e H. apply mapM_err in H. exact H.
  - intros L e H. apply mapM_err in H. exact H.
  - intros L d k v Hd Hkv Hn Hf. unfold GetConsumerAcceptList.
    apply (mapM_fails _ _ (k, v) (ValueError endpoint_unsupported_msg)).
    + apply (items_in L d); assumption.
    + simpl. rewrite Hn, Hf. reflexivity.
Qed.

Lemma accept_list_errors_witness :
  GetConsumerAcceptList [[("p1", Some "2"); (e3_url, Some "1")]]
    = Err (ValueError endpoint_unsupported_msg) /\
  exists e, GetConsumerAcceptList [[("p1", Some "2"); (e3_url, Some "1")]] = Err e.
Proof.
  split; [reflexivity|].
  apply (proj2 (proj2 accept_list_errors) [[("p1", Some "2"); (e3_url, Some "1")]]
           [("p1", Some "2"); (e3_url, Some "1")] e3_url (Some "1")).
  - left. reflexivity.
  - right. left. reflexivity.
  - vm_compute. reflexivity.
  - vm_compute. reflexivity.
Defined.

(* ------------------------------------------------------------------ *)
(** ** [s.rstrip('/').split('/')[-1]] *)

Lemma string_app_nil_r (s : string) : (s ++ EmptyString)%string = s.
Proof. induction s as [|c s IH]; simpl; [reflexivity | rewrite IH; reflexivity]. Qed.

Lemma string_app_assoc (s t u : string) : (s ++ (t ++ u))%string = ((s ++ t) ++ u)%string.
Proof. induction s as [|c s IH]; simpl; [reflexivity | rewrite IH; reflexivity]. Qed.

Lemma all_slash_app s t : PyStr.all_slash (s ++ t) = PyStr.all_slash s && PyStr.all_slash t.
Proof. induction s as [|c s IH]; simpl; [reflexivity|]. rewrite IH. apply andb_assoc. Qed.

Lemma rstrip_slash_app_slash s : PyStr.rstrip_slash (s ++ "/") = PyStr.rstrip_slash s.
Proof.
  induction s as [|c s IH]; [reflexivity|].
  change (PyStr.rstrip_slash (String c (s ++ "/")) = PyStr.rstrip_slash (String c s)).
  simpl. rewrite all_slash_app. simpl.
  rewrite andb_true_r, IH. reflexivity.
Qed.

Lemma no_slash_all_slash c b :
  PyStr.contains "/" (String c b) = false -> PyStr.all_slash (String c b) = false.
Proof.
  simpl. destruct (Ascii.eqb c PyStr.slash) eqn:E; [|reflexivity].
  apply Ascii.eqb_eq in E. subst. discriminate.
Qed.

Lemma contains_slash_tail c b : PyStr.contains "/" (String c b) = false -> PyStr.contains "/" b = false.
Proof.
  intro H. change ((PyStr.startswith "/" (String c b) || PyStr.contains "/" b)%bool = false) in H.
  apply Bool.orb_false_iff in H. apply H.
Qed.

Lemma rstrip_no_slash b : PyStr.contains "/" b = false -> PyStr.rstrip_slash b = b.
Proof.
  induction b as [|c b IH]; intro H; [reflexivity|].
  change (PyStr.rstrip_slash (String c b))
    with (if PyStr.all_slash (String c b) then EmptyString else String c (PyStr.rstrip_slash b)).
  rewrite (no_slash_all_slash c b H).
  rewrite (IH (contains_slash_tail c b H)). reflexivity.
Qed.

Lemma rstrip_app_not_all_slash x b :
  PyStr.all_slash b = false -> PyStr.rstrip_slash (x ++ b) = (x ++ PyStr.rstrip_slash b)%string.
Proof.
  intro H. induction x as [|c x IH]; [reflexivity|].
  change (PyStr.rstrip_slash (String c (x ++ b)) = String c (x ++ PyStr.rstrip_slash b)).
  simpl. rewrite all_slash_app, H, !andb_false_r, IH. reflexivity.
Qed.

Lemma last_segment_aux_no_slash b cur :
  PyStr.contains "/" b = false -> PyStr.last_segment_aux b cur = (cur ++ b)%string.
Proof.
  revert cur. induction b as [|c b IH]; intros cur H; simpl.
  - rewrite string_app_nil_r. reflexivity.
  - destruct (Ascii.eqb c PyStr.slash) eqn:E.
    + apply Ascii.eqb_eq in E. subst. discriminate.
    + rewrite (IH _ (contains_slash_tail c b H)). rewrite <- string_app_assoc. reflexivity.
Qed.

Lemma last_segment_aux_after_slash x b cur :
  PyStr.last_segment_aux (x ++ String "/" b) cur = PyStr.last_segment_aux b EmptyString.
Proof.
  revert cur. induction x as [|c x IH]; intro cur; simpl; [reflexivity|].
  destruct (Ascii.eqb c PyStr.slash); apply IH.
Qed.

(** The identifier extracted from a resource URL ignores trailing
    slashes, and is the last segment when that segment is non-empty:
    [trailing_id (x ++ "/" ++ b) = b] for a non-empty [b] without ['/']. *)
Theorem trailing_id_facts :
  (forall s, PyStr.trailing_id (s ++ "/") = PyStr.trailing_id s) /\
  (forall x b, b <> EmptyString -> PyStr.contains "/" b = false ->
     PyStr.trailing_id (x ++ "/" ++ b) = b).
Proof.
  split.
  - intro s. unfold PyStr.trailing_id. rewrite rstrip_slash_app_slash. reflexivity.
  - intros x [|c b] Hne Hb; [contradiction Hne; reflexivity|].
    unfold PyStr.trailing_id, PyStr.last_segment.
    rewrite string_app_assoc.
    rewrite (rstrip_app_not_all_slash (x ++ "/") (String c b) (no_slash_all_slash c b Hb)).
    rewrite (rstrip_no_slash _ Hb), <- string_app_assoc. simpl append at 2.
    rewrite last_segment_aux_after_slash. apply last_segment_aux_no_slash. exact Hb.
Qed.

Lemma trailing_id_facts_witness :
  PyStr.trailing_id ("projects/c/regions/r/forwardingRules" ++ "/" ++ "e3") = "e3".
Proof.
  apply (proj2 trailing_id_facts). - discriminate. - reflexivity.
Defined.

(* ------------------------------------------------------------------ *)
(** ** Running the same update twice *)

Lemma sort_by_sorted_id {A K} (key : A -> K) cmp l :
  StronglySorted (le_key key cmp) l -> sort_by key cmp l = l.
Proof.
  induction l as [|x l IH]; intro H; [reflexivity|].
  inversion H as [|? ? Hs Hf]; subst. simpl. rewrite (IH Hs).
  destruct l as [|y l']; [reflexivity|]. simpl.
  inversion Hf as [|? ? Hxy _]; subst. unfold le_key in Hxy.
  destruct (cmp (key x) (key y)); [reflexivity | reflexivity | contradiction Hxy; reflexivity].
Qed.

Lemma sort_by_idem {A K} (key : A -> K) cmp l :
  CmpOk cmp -> sort_by key cmp (sort_by key cmp l) = sort_by key cmp l.
Proof. intro Hc. apply sort_by_sorted_id. apply sort_by_strongly_sorted. exact Hc. Qed.

Lemma option_eqb_sound {A} (eqb : A -> A -> bool) :
  (forall a b, eqb a b = true -> a = b) -> forall x y, option_eqb eqb x y = true -> x = y.
Proof. intros H [a|] [b|]; simpl; try discriminate; auto. intro E. f_equal. apply H. exact E. Qed.

Lemma list_eqb_sound {A} (eqb : A -> A -> bool) :
  (forall a b, eqb a b = true -> a = b) -> forall l1 l2, list_eqb eqb l1 l2 = true -> l1 = l2.
Proof.
  intros H l1. induction l1 as [|a l1 IH]; intros [|b l2]; simpl; try discriminate; auto.
  intro E. apply andb_true_iff in E as [E1 E2]. f_equal; [apply H | apply IH]; assumption.
Qed.

Lemma pref_eqb_sound a b : pref_eqb a b = true -> a = b.
Proof. destruct a, b; simpl; congruence. Qed.

Lemma limit_eqb_sound a b : limit_eqb a b = true -> a = b.
Proof.
  destruct a as [p1 n1 e1 c1], b as [p2 n2 e2 c2]. unfold limit_eqb. simpl.
  intro E. apply andb_true_iff in E as [E E4]. apply andb_true_iff in E as [E E3].
  apply andb_true_iff in E as [E1 E2].
  apply (option_eqb_sound _ (fun a b => proj1 (String.eqb_eq a b))) in E1, E2, E3.
  apply (option_eqb_sound _ (fun a b => proj1 (Z.eqb_eq a b))) in E4.
  subst. reflexivity.
Qed.

Lemma connected_ids_congr a b :
  connectedEndpoints a = connectedEndpoints b -> GetConnectedEndpointIds a = GetConnectedEndpointIds b.
Proof. intro E. unfold GetConnectedEndpointIds. rewrite E. reflexivity. Qed.

(** Each step, run against the attachment it is given as the snapshot,
    with the override already in place, does nothing. *)
Lemma modify_settled_noop support args r :
  target_service args = None -> settled support args r ->
  Modify support args r [] = Ok (None, []).
Proof.
  intros Ht (Hd & Hp & Hx & Hn & Hr & Ha & Ho & Hc & Hl).
  set (st0 := mk r false []).
  assert (E1 : step_target args st0 = st0) by (unfold step_target; rewrite Ht; reflexivity).
  assert (E2 : step_description args r st0 = st0).
  { unfold step_description. destruct (description_arg args) as [d|] eqn:E; [|reflexivity].
    rewrite (Hd d eq_refl). simpl. rewrite String.eqb_refl. reflexivity. }
  assert (E3 : step_connection_preference args r st0 = st0).
  { unfold step_connection_preference. destruct (connection_preference args) as [t|] eqn:E; [|reflexivity].
    rewrite (Hp t eq_refl), (option_eqb_refl _ pref_eqb_refl). reflexivity. }
  assert (E4 : step_proxy_protocol args r st0 = st0).
  { unfold step_proxy_protocol. destruct (enable_proxy_protocol args) as [b|] eqn:E; [|reflexivity].
    rewrite (Hx b eq_refl). simpl. rewrite Bool.eqb_reflx. reflexivity. }
  assert (E5 : step_nat_subnets args r st0 = st0).
  { unfold step_nat_subnets. destruct (nat_subnets args) as [l|] eqn:E; [|reflexivity].
    rewrite (Hn l eq_refl), (list_eqb_refl _ String.eqb_refl). reflexivity. }
  assert (E6 : step_reject_list args r st0 = st0).
  { unfold step_reject_list. destruct (consumer_reject_list args) as [l|] eqn:E; [|reflexivity].
    rewrite (Hr l eq_refl), (list_eqb_refl _ String.eqb_refl). reflexivity. }
  assert (E7 : step_accept_list support args r st0 = Ok st0).
  { unfold step_accept_list. destruct (consumer_accept_list args) as [al|] eqn:E; [|reflexivity].
    destruct (Ha al eq_refl) as [cal [Ec Es]]. rewrite Ec. simpl.
    rewrite Es, (list_eqb_refl _ limit_eqb_refl). reflexivity. }
  assert (E8 : step_remove_obsolete support args st0 = Ok st0).
  { unfold step_remove_obsolete.
    destruct (support && remove_obsolete_endpoint_accept_reject_entries args) eqn:E; [|reflexivity].
    destruct (Ho eq_refl) as (Na & Nr & Ka & Kr). rewrite Na, Nr. simpl.
    unfold RemoveObsoleteEndpointEntries. rewrite (clean_accepted_fixed _ _ _ Ka).
    rewrite (clean_rejected_fixed _ _ _ Kr). reflexivity. }
  assert (E9 : step_reconcile args r st0 = st0).
  { unfold step_reconcile. destruct (reconcile_connections args) as [b|] eqn:E; [|reflexivity].
    rewrite (Hc b eq_refl). simpl. rewrite Bool.eqb_reflx. reflexivity. }
  assert (E10 : step_propagated_limit args r st0 = st0).
  { unfold step_propagated_limit. destruct (propagated_connection_limit args) as [n|] eqn:E; [|reflexivity].
    rewrite (Hl n eq_refl). simpl. rewrite Z.eqb_refl. reflexivity. }
  unfold Modify. fold st0. rewrite E1, E2, E3, E4, E5, E6, E7. cbn [bind].
  rewrite E8. cbn [bind]. rewrite E9, E10. reflexivity.
Qed.

(** Walk a [field_eq] goal back through the steps of [_Modify]. *)
Ltac frame_chain :=
  match goal with
  | |- field_eq _ ?A ?A => apply field_eq_refl
  | |- field_eq _ ?A (replacement (mk ?A _ _)) => apply field_eq_refl
  | |- field_eq ?f ?A (replacement (step_propagated_limit ?a ?o ?s)) =>
      apply (field_eq_trans f A (replacement s));
      [frame_chain | apply step_propagated_limit_frame; intro; discriminate]
  | |- field_eq ?f ?A (replacement (step_reconcile ?a ?o ?s)) =>
      apply (field_eq_trans f A (replacement s));
      [frame_chain | apply step_reconcile_frame; intro; discriminate]
  | E : step_remove_obsolete _ _ ?s = Ok ?t |- field_eq ?f ?A (replacement ?t) =>
      apply (field_eq_trans f A (replacement s));
      [frame_chain | apply (step_remove_obsolete_frame _ _ _ _ f E);
                     first [intros [?|?]; discriminate | intros _; assumption]]
  | E : step_accept_list _ _ _ ?s = Ok ?t |- field_eq ?f ?A (replacement ?t) =>
      apply (field_eq_trans f A (replacement s));
      [frame_chain | apply (step_accept_list_frame _ _ _ _ f _ E); intro; discriminate]
  | |- field_eq ?f ?A (replacement (step_reject_list ?a ?o ?s)) =>
      apply (field_eq_trans f A (replacement s));
      [frame_chain | apply step_reject_list_frame; intro; discriminate]
  | |- field_eq ?f ?A (replacement (step_nat_subnets ?a ?o ?s)) =>
      apply (field_eq_trans f A (replacement s));
      [frame_chain | apply step_nat_subnets_frame; intro; discriminate]
  | |- field_eq ?f ?A (replacement (step_proxy_protocol ?a ?o ?s)) =>
      apply (field_eq_trans f A (replacement s));
      [frame_chain | apply step_proxy_protocol_frame; intro; discriminate]
  | |- field_eq ?f ?A (replacement (step_connection_preference ?a ?o ?s)) =>
      apply (field_eq_trans f A (replacement s));
      [frame_chain | apply step_connection_preference_frame; intro; discriminate]
  | |- field_eq ?f ?A (replacement (step_description ?a ?o ?s)) =>
      apply (field_eq_trans f A (replacement s));
      [frame_chain | apply step_description_frame; intro; discriminate]
  | |- field_eq ?f ?A (replacement (step_target ?a ?s)) =>
      apply (field_eq_trans f A (replacement s));
      [frame_chain | apply step_target_frame; intro; discriminate]
  end.

Lemma remove_flag_off support args st st' l :
  step_remove_obsolete support args st = Ok st' ->
  consumer_reject_list args = Some l \/ is_specified (consumer_accept_list args) = true ->
  support && remove_obsolete_endpoint_accept_reject_entries args = false.
Proof.
  unfold step_remove_obsolete. intros H Hs.
  destruct (support && remove_obsolete_endpoint_accept_reject_entries args); [|reflexivity].
  destruct Hs as [E|E]; rewrite E in H; [rewrite orb_true_r in H|]; discriminate.
Qed.

(** After a patch, the returned copy is settled for the same overrides. *)
Lemma modify_result_settled support args old cleared0 r cl :
  Modify support args old cleared0 = Ok (Some r, cl) -> settled support args r.
Proof.
  intro H. unfold Modify in H. cbv zeta in H.
  destruct (step_accept_list _ _ _ _) as [st7|] eqn:E7; simpl in H; [|discriminate].
  destruct (step_remove_obsolete _ _ _) as [st8|] eqn:E8; simpl in H; [|discriminate].
  destruct (is_updated _); inversion H; subst; clear H.
  unfold settled.
  refine (conj _ (conj _ (conj _ (conj _ (conj _ (conj _ (conj _ (conj _ _)))))))).
  - intros d Hd.
    assert (B : description (replacement (step_target args (mk old false cleared0))) = description old)
      by (symmetry; change (field_eq F_description old (replacement (step_target args (mk old false cleared0)))); frame_chain).
    assert (P : description (replacement (step_description args old (step_target args (mk old false cleared0)))) = Some d).
    { unfold step_description. rewrite Hd.
      destruct (option_eqb String.eqb (Some d) (description old)) eqn:Eq; simpl; [|reflexivity].
      apply (option_eqb_sound _ (fun a b => proj1 (String.eqb_eq a b))) in Eq. congruence. }
    rewrite <- P. symmetry. change (field_eq F_description (replacement (step_description args old (step_target args (mk old false cleared0))))
      (replacement (step_propagated_limit args old (step_reconcile args old st8)))). frame_chain.
  - intros t Ht.
    assert (B : connectionPreference (replacement (step_description args old (step_target args (mk old false cleared0)))) = connectionPreference old)
      by (symmetry; change (field_eq F_connectionPreference old (replacement (step_description args old (step_target args (mk old false cleared0))))); frame_chain).
    assert (P : connectionPreference (replacement (step_connection_preference args old (step_description args old (step_target args (mk old false cleared0)))))
                = GetConnectionPreference t).
    { unfold step_connection_preference. rewrite Ht.
      destruct (option_eqb pref_eqb (GetConnectionPreference t) (connectionPreference old)) eqn:Eq;
        simpl; [|reflexivity].
      apply (option_eqb_sound _ pref_eqb_sound) in Eq. congruence. }
    rewrite <- P. symmetry. change (field_eq F_connectionPreference
      (replacement (step_connection_preference args old (step_description args old (step_target args (mk old false cleared0)))))
      (replacement (step_propagated_limit args old (step_reconcile args old st8)))). frame_chain.
  - intros b Hb.
    assert (B : enableProxyProtocol (replacement (step_connection_preference args old (step_description args old (step_target args (mk old false cleared0))))) = enableProxyProtocol old)
      by (symmetry; change (field_eq F_enableProxyProtocol old (replacement (step_connection_preference args old (step_description args old (step_target args (mk old false cleared0)))))); frame_chain).
    assert (P : enableProxyProtocol (replacement (step_proxy_protocol args old (step_connection_preference args old (step_description args old (step_target args (mk old false cleared0)))))) = Some b).
    { unfold step_proxy_protocol. rewrite Hb.
      destruct (option_eqb Bool.eqb (Some b) (enableProxyProtocol old)) eqn:Eq; simpl; [|reflexivity].
      apply (option_eqb_sound _ (fun a b => proj1 (Bool.eqb_true_iff a b))) in Eq. congruence. }
    rewrite <- P. symmetry. change (field_eq F_enableProxyProtocol (replacement (step_proxy_protocol args old (step_connection_preference args old (step_description args old (step_target args (mk old false cleared0))))))
      (replacement (step_propagated_limit args old (step_reconcile args old st8)))). frame_chain.
  - intros l Hl.
    assert (B : natSubnets (replacement (step_proxy_protocol args old (step_connection_preference args old
                 (step_description args old (step_target args (mk old false cleared0)))))) = natSubnets old)
      by (symmetry; change (field_eq F_natSubnets old (replacement (step_proxy_protocol args old (step_connection_preference args old
                 (step_description args old (step_target args (mk old false cleared0))))))); frame_chain).
    assert (P : sorted_str (natSubnets (replacement (step_nat_subnets args old (step_proxy_protocol args old (step_connection_preference args old
                 (step_description args old (step_target args (mk old false cleared0)))))))) = sorted_str l).
    { unfold step_nat_subnets. rewrite Hl.
      destruct (list_eqb String.eqb (sorted_str l) (sorted_str (natSubnets old))) eqn:Eq; simpl.
      - apply (list_eqb_sound _ (fun a b => proj1 (String.eqb_eq a b))) in Eq. congruence.
      - apply (sort_by_idem (fun s => s) str_cmp). exact str_cmp_ok. }
    rewrite <- P. f_equal. symmetry.
    change (field_eq F_natSubnets (replacement (step_nat_subnets args old (step_proxy_protocol args old (step_connection_preference args old
                 (step_description args old (step_target args (mk old false cleared0)))))))
      (replacement (step_propagated_limit args old (step_reconcile args old st8)))). frame_chain.
  - intros l Hl.
    assert (B : consumerRejectLists (replacement (step_nat_subnets args old (step_proxy_protocol args old (step_connection_preference args old
                 (step_description args old (step_target args (mk old false cleared0))))))) = consumerRejectLists old)
      by (symmetry; change (field_eq F_consumerRejectLists old (replacement (step_nat_subnets args old (step_proxy_protocol args old (step_connection_preference args old
                 (step_description args old (step_target args (mk old false cleared0)))))))); frame_chain).
    assert (P : sorted_str (consumerRejectLists (replacement (step_reject_list args old (step_nat_subnets args old (step_proxy_protocol args old (step_connection_preference args old
                 (step_description args old (step_target args (mk old false cleared0))))))))) = sorted_str l).
    { unfold step_reject_list. rewrite Hl.
      destruct (list_eqb String.eqb (sorted_str l) (sorted_str (consumerRejectLists old))) eqn:Eq; simpl.
      - apply (list_eqb_sound _ (fun a b => proj1 (String.eqb_eq a b))) in Eq. congruence.
      - apply (sort_by_idem (fun s => s) str_cmp). exact str_cmp_ok. }
    assert (Hoff := remove_flag_off _ _ _ _ _ E8 (or_introl Hl)).
    rewrite <- P. f_equal. symmetry.
    change (field_eq F_consumerRejectLists (replacement (step_reject_list args old (step_nat_subnets args old (step_proxy_protocol args old (step_connection_preference args old
                 (step_description args old (step_target args (mk old false cleared0))))))))
      (replacement (step_propagated_limit args old (step_reconcile args old st8)))). frame_chain.
  - intros al Hal.
    assert (B : consumerAcceptLists (replacement (step_reject_list args old (step_nat_subnets args old (step_proxy_protocol args old
                 (step_connection_preference args old (step_description args old (step_target args (mk old false cleared0)))))))) = consumerAcceptLists old)
      by (symmetry; change (field_eq F_consumerAcceptLists old (replacement (step_reject_list args old (step_nat_subnets args old (step_proxy_protocol args old
                 (step_connection_preference args old (step_description args old (step_target args (mk old false cleared0))))))))); frame_chain).
    assert (Hoff : support && remove_obsolete_endpoint_accept_reject_entries args = false)
      by (apply (remove_flag_off _ _ _ _ nil E8); right; rewrite Hal; reflexivity).
    assert (T : consumerAcceptLists (replacement st7)
                = consumerAcceptLists (replacement (step_propagated_limit args old (step_reconcile args old st8))))
      by (change (field_eq F_consumerAcceptLists (replacement st7)
            (replacement (step_propagated_limit args old (step_reconcile args old st8)))); frame_chain).
    rewrite <- T. clear T.
    unfold step_accept_list in E7. rewrite Hal in E7.
    destruct (get_consumer_accept_list support al) as [cal|e] eqn:Ec; simpl in E7; [|discriminate].
    exists cal. split; [reflexivity|].
    destruct (list_eqb limit_eqb (sort_by (accept_key support) key_cmp cal)
               (sort_by (accept_key support) key_cmp (consumerAcceptLists old))) eqn:Eq;
      simpl in E7; inversion E7; subst; simpl.
    + apply (list_eqb_sound _ limit_eqb_sound) in Eq. congruence.
    + apply sort_by_idem. exact key_cmp_ok.
  - intro Hf. refine (conj _ (conj _ (conj _ _))).
    + unfold step_remove_obsolete in E8. rewrite Hf in E8.
      destruct (is_specified (consumer_accept_list args)) eqn:Ea; [discriminate|].
      apply not_specified in Ea. exact Ea.
    + unfold step_remove_obsolete in E8. rewrite Hf in E8.
      destruct (is_specified (consumer_reject_list args)) eqn:Er; [rewrite orb_true_r in E8; discriminate|].
      apply not_specified in Er. exact Er.
    + intros e He.
      assert (TA : consumerAcceptLists (replacement st8)
                   = consumerAcceptLists (replacement (step_propagated_limit args old (step_reconcile args old st8))))
        by (change (field_eq F_consumerAcceptLists (replacement st8)
              (replacement (step_propagated_limit args old (step_reconcile args old st8)))); frame_chain).
      assert (TC : connectedEndpoints (replacement st8)
                   = connectedEndpoints (replacement (step_propagated_limit args old (step_reconcile args old st8))))
        by (change (field_eq F_connectedEndpoints (replacement st8)
              (replacement (step_propagated_limit args old (step_reconcile args old st8)))); frame_chain).
      rewrite <- (connected_ids_congr _ _ TC). rewrite <- TA in He.
      unfold step_remove_obsolete in E8. rewrite Hf in E8.
      destruct (_ || _); [discriminate|].
      unfold RemoveObsoleteEndpointEntries in E8.
      destruct (CleanObsoleteAcceptedEndpointUrls _ _ _) as [[r1 cf1] c1] eqn:E1.
      destruct (CleanObsoleteRejectedEndpointUrls _ _ _) as [[r2 cf2] c2] eqn:E2.
      inversion E8; subst. simpl in *.
      apply clean_accepted_shape in E1. apply clean_rejected_shape in E2. subst. simpl in *.
      apply filter_In in He. apply He.
    + intros e He.
      assert (TR : consumerRejectLists (replacement st8)
                   = consumerRejectLists (replacement (step_propagated_limit args old (step_reconcile args old st8))))
        by (change (field_eq F_consumerRejectLists (replacement st8)
              (replacement (step_propagated_limit args old (step_reconcile args old st8)))); frame_chain).
      assert (TC : connectedEndpoints (replacement st8)
                   = connectedEndpoints (replacement (step_propagated_limit args old (step_reconcile args old st8))))
        by (change (field_eq F_connectedEndpoints (replacement st8)
              (replacement (step_propagated_limit args old (step_reconcile args old st8)))); frame_chain).
      rewrite <- (connected_ids_congr _ _ TC). rewrite <- TR in He.
      unfold step_remove_obsolete in E8. rewrite Hf in E8.
      destruct (_ || _); [discriminate|].
      unfold RemoveObsoleteEndpointEntries in E8.
      destruct (CleanObsoleteAcceptedEndpointUrls _ _ _) as [[r1 cf1] c1] eqn:E1.
      destruct (CleanObsoleteRejectedEndpointUrls _ _ _) as [[r2 cf2] c2] eqn:E2.
      inversion E8; subst. simpl in *.
      apply clean_accepted_shape in E1. apply clean_rejected_shape in E2. subst. simpl in *.
      apply filter_In in He. apply He.
  - intros b Hb.
    assert (P : reconcileConnections (replacement (step_reconcile args old st8)) = Some b).
    { unfold step_reconcile. rewrite Hb.
      destruct (option_eqb Bool.eqb (Some b) (reconcileConnections old)) eqn:Eq; simpl; [|reflexivity].
      apply (option_eqb_sound _ (fun a b => proj1 (Bool.eqb_true_iff a b))) in Eq.
      assert (B : reconcileConnections (replacement st8) = reconcileConnections old)
        by (symmetry; change (field_eq F_reconcileConnections old (replacement st8)); frame_chain).
      congruence. }
    rewrite <- P. symmetry.
    change (field_eq F_reconcileConnections (replacement (step_reconcile args old st8))
      (replacement (step_propagated_limit args old (step_reconcile args old st8)))). frame_chain.
  - intros n Hn. unfold step_propagated_limit. rewrite Hn.
    destruct (option_eqb Z.eqb (Some n) (propagatedConnectionLimit old)) eqn:Eq; simpl; [|reflexivity].
    apply (option_eqb_sound _ (fun a b => proj1 (Z.eqb_eq a b))) in Eq.
    assert (B : propagatedConnectionLimit (replacement (step_reconcile args old st8))
                = propagatedConnectionLimit old)
      by (symmetry; change (field_eq F_propagatedConnectionLimit old
            (replacement (step_reconcile args old st8))); frame_chain).
    congruence.
Qed.

(** Re-running the same update without [--target-service] against the
    attachment that the first run left on the server does nothing: it
    issues no PATCH and returns the stored attachment, or raises the
    first run's error again. *)
Theorem run_twice_no_second_patch :
  forall support args server,
    target_service args = None ->
    Run support args (snd (Run support args server)) =
    match fst (Run support args server) with
    | Raised e => (Raised e, snd (Run support args server))
    | _ => (ReturnedOld (snd (Run support args server)), snd (Run support args server))
    end.
Proof.
  intros support args server Ht. unfold Run.
  destruct (Modify support args server []) as [[[r|] c]|e] eqn:E; simpl; rewrite ?E; try reflexivity.
  rewrite (modify_settled_noop support args r Ht (modify_result_settled _ _ _ _ _ _ E)).
  reflexivity.
Qed.

Lemma run_twice_no_second_patch_witness :
  Run true (sa_args None (Some "b") (Some ["s3"]) None None false) sa0
    = (Patched (set_natSubnets ["s3"] (set_description (Some "b") sa0)) [],
       set_natSubnets ["s3"] (set_description (Some "b") sa0)) /\
  Run true (sa_args None (Some "b") (Some ["s3"]) None None false)
      (snd (Run true (sa_args None (Some "b") (Some ["s3"]) None None false) sa0)) =
  match fst (Run true (sa_args None (Some "b") (Some ["s3"]) None None false) sa0) with
  | Raised e => (Raised e, snd (Run true (sa_args None (Some "b") (Some ["s3"]) None None false) sa0))
  | _ => (ReturnedOld (snd (Run true (sa_args None (Some "b") (Some ["s3"]) None None false) sa0)),
          snd (Run true (sa_args None (Some "b") (Some ["s3"]) None None false) sa0))
  end.
Proof.
  split; [reflexivity|].
  apply (run_twice_no_second_patch true (sa_args None (Some "b") (Some ["s3"]) None None false) sa0).
  reflexivity.
Defined.
